(** * LDAR-Sim utilities: leak-rate distributions and generic helpers

    A shallow embedding of [utils/distributions.py] ([fit_dist], [leak_rvs],
    [unpackage_dist]) and of [utils/generic_functions.py] ([gap_calculator],
    [init_orbit_poly], [geo_idx], [quick_cal_daylight], [ecef_to_llh]), with
    the properties the specification states about them and further
    properties read off the code.

    Conventions of the embedding.
    - Python floats are IEEE binary64 values: Rocq's primitive [float].
      A numeric bound passed as a Python [int] is denoted by its float.
    - Python exceptions are values of [exn]; a function that can raise
      returns a [result].
    - Calls into scipy, numpy, pandas, json, the unit converter and the orbit
      predictor are parameters of the sections that use them.  The calls a
      function makes are recorded, in order, in a list of [event]s, so that
      "is called", "is called once" and "is not called" are statements about
      that list.
    - The random source behind [distribution.rvs()] is the list of the values
      it is going to deliver; [leak_rvs] consumes a prefix of it and returns
      the remainder. *)

From Stdlib Require Import ZArith List String Ascii Bool Lia Sorted.
From Stdlib Require Import Floats.
From stdpp Require Import gmap strings.

Import ListNotations.
Local Open Scope Z_scope.
Set Warnings "-register-all".

(** ** Python values, exceptions, results *)

Module Py.

Inductive exn : Type :=
| KeyError (key : string)
| IndexError
| AttributeError (name : string)
| TypeError
| ValueError
| OverflowError
| LibError (code : nat).   (* raised from inside an external library *)

Inductive result (A : Type) : Type :=
| Ret (a : A)
| Raise (e : exn).

Arguments Ret {A} a.
Arguments Raise {A} e.

#[export] Instance result_ret : MRet result := fun _ a => Ret a.

#[export] Instance result_bind : MBind result := fun _ _ k r =>
  match r with
  | Ret a => k a
  | Raise e => Raise e
  end.

Inductive value : Type :=
| VNone
| VBool (b : bool)
| VInt (z : Z)
| VFloat (f : float)
| VStr (s : string)
| VList (items : list value)
| VTuple (items : list value)
| VArray (data : list float)
| VFrozen (family : string) (args : list value) (loc scale : value).

(** [str.lower()].  Strings are byte strings; only ASCII capitals change.
    No non-ASCII code point lowers to a letter of "gram" or "second", so the
    comparisons of [leak_rvs] agree with Python's on every input. *)
Definition lower_ascii (c : ascii) : ascii :=
  let n := N_of_ascii c in
  if ((65 <=? n) && (n <=? 90))%N then ascii_of_N (n + 32) else c.

Fixpoint lower (s : string) : string :=
  match s with
  | EmptyString => EmptyString
  | String c s' => String (lower_ascii c) (lower s')
  end.

(** [v == "literal"] for an arbitrary value [v]. *)
Definition eq_str (v : value) (lit : string) : bool :=
  match v with
  | VStr s => String.eqb s lit
  | _ => false
  end.

End Py.

Import Py.

(** ** utils/distributions.py *)

Module Distributions.

(** External calls, in the order they are made. *)
Inductive event : Type :=
| EFit (family : string) (samples : list float) (floc : value)
| EGasConvert (leaksize : float) (input_metric input_increment : string)
| EExp (x : value)
| EReadCsv (wd file : string).

(** The [np.exp] calls among the events of a run. *)
Definition exp_calls (evs : list event) : list event :=
  List.filter (fun ev => match ev with EExp _ => true | _ => false end) evs.

Section LeakRvs.

(** [utils.unit_converter.gas_convert(value, input_metric, input_increment)]:
    converts to grams per second. *)
Variable gas_convert : float -> string -> string -> float.

(** Truthiness of [max_size]: [None] and zero (either sign) are falsy. *)
Definition truthy_max (max_size : option float) : bool :=
  match max_size with
  | None => false
  | Some m => negb (PrimFloat.eqb m 0%float)
  end.

(** [leaksize < max_size], evaluated only when [max_size] is truthy. *)
Definition below_max (leaksize : float) (max_size : option float) : bool :=
  match max_size with
  | None => false
  | Some m => PrimFloat.ltb leaksize m
  end.

(** Lines 76-85: the conversion guard.  [gpsec_conversion] is [None] or a
    list of strings; an empty list is falsy, and [and] evaluates left to
    right, so index 1 is read only when index 0 is not "gram". *)
Definition convert (gpsec_conversion : option (list string)) (leaksize : float)
  : list event * result float :=
  match gpsec_conversion with
  | None => ([], Ret leaksize)
  | Some [] => ([], Ret leaksize)
  | Some (metric :: tl) =>
      if negb (String.eqb (lower metric) "gram") then
        match tl with
        | [] => ([], Raise IndexError)
        | increment :: _ =>
            if negb (String.eqb (lower increment) "second") then
              ([EGasConvert leaksize metric increment],
               Ret (gas_convert leaksize metric increment))
            else ([], Ret leaksize)
        end
      else ([], Ret leaksize)
  end.

(** Lines 74-88.  [rvs] is what [distribution.rvs()] delivers, call after
    call.  The result is [None] when the loop asks for a draw beyond the end
    of [rvs]: the loop is still running. *)
Fixpoint leak_rvs (rvs : list float) (max_size : option float)
    (gpsec_conversion : option (list string))
  : list event * option (result (float * list float)) :=
  match rvs with
  | [] => ([], None)
  | draw :: rvs' =>
      match convert gpsec_conversion draw with
      | (evs, Raise e) => (evs, Some (Raise e))
      | (evs, Ret leaksize) =>
          if negb (truthy_max max_size) || below_max leaksize max_size
          then (evs, Some (Ret (leaksize, rvs')))
          else
            let '(evs', r) := leak_rvs rvs' max_size gpsec_conversion in
            (evs ++ evs', r)
      end
  end.

End LeakRvs.

Section FitDist.

(** [getattr(scipy.stats, name)]: [Some n] when the attribute is a continuous
    family with [n] shape parameters, [None] when there is no such
    attribute. *)
Variable scipy_stats : string -> option nat.

(** [dist.fit(samples, floc=loc)]: the parameter tuple
    [(shape..., loc, scale)], or the error the fit raises. *)
Variable dist_fit : string -> list float -> value -> result (list value).

(** [json.loads]. *)
Variable json_loads : string -> result value.

(** Line 43. *)
Definition getattr_stats (dist_type : value) : result string :=
  match dist_type with
  | VStr name =>
      match scipy_stats name with
      | Some _ => Ret name
      | None => Raise (AttributeError name)
      end
  | _ => Raise TypeError
  end.

(** [t[-k]] on a tuple, for [k >= 1]. *)
Definition index_from_end (t : list value) (k : nat) : result value :=
  if (k <=? length t)%nat then
    match nth_error t (length t - k) with
    | Some v => Ret v
    | None => Raise IndexError
    end
  else Raise IndexError.

(** Lines 45-50: the fit, and the single retry on the positive samples.  The
    bare [except] swallows whatever the first call raised. *)
Definition fit_samples (dist : string) (samples : list float) (loc : value)
  : list event * result (list value) :=
  match dist_fit dist samples loc with
  | Ret param => ([EFit dist samples loc], Ret param)
  | Raise _ =>
      let samples' := List.filter (fun s => PrimFloat.ltb 0%float s) samples in
      ([EFit dist samples loc; EFit dist samples' loc],
       dist_fit dist samples' loc)
  end.

(** Lines 51-53: [(loc, scale, shape)] read off the parameter tuple. *)
Definition unpack_param (param : list value) : result (value * value * value) :=
  l ← index_from_end param 2;
  sc ← index_from_end param 1;
  mret (VTuple [l], sc, VTuple (firstn (length param - 2) param)).

(** Lines 54-59. *)
Definition normalize_shape (shape : value) : result value :=
  shape ← match shape with
          | VStr s => json_loads s
          | _ => mret shape
          end;
  mret match shape with
       | VList _ => shape
       | _ => VList [shape]
       end.

(** Line 60: [dist] called on the unpacked shape list with [loc] and [scale]
    as keywords, which builds the frozen distribution.  scipy
    parses the positional arguments against the family's shape parameters
    and raises [TypeError] when their number is wrong. *)
Definition freeze (dist : string) (shape loc scale : value) : result value :=
  match shape with
  | VList args =>
      match scipy_stats dist with
      | Some n =>
          if (length args =? n)%nat then mret (VFrozen dist args loc scale)
          else Raise TypeError
      | None => Raise (AttributeError dist)
      end
  | _ => Raise TypeError
  end.

(** Lines 29-60. *)
Definition fit_dist (samples : option (list float)) (dist_type : value)
    (loc shape scale : value) : list event * result value :=
  match getattr_stats dist_type with
  | Raise e => ([], Raise e)
  | Ret dist =>
      let '(evs, fitted) :=
        match samples with
        | Some samples =>
            let '(evs, r) := fit_samples dist samples loc in
            (evs, r ≫= unpack_param)
        | None => ([], mret (loc, scale, shape))
        end in
      (evs,
       '(loc, scale, shape) ← fitted;
       shape ← normalize_shape shape;
       freeze dist shape loc scale)
  end.

(** *** unpackage_dist *)

(** [np.exp]. *)
Variable np_exp : value -> result value.

(** [np.array(pd.read_csv(wd / file).iloc[:, 0])]. *)
Variable read_first_column : string -> string -> result (list float).

(** A subtype is a dict that the loader mutates in place; a step of the
    loader maps the dict to the dict it leaves behind, the external calls it
    made and its result. *)
Definition loader (A : Type) : Type :=
  gmap string value -> gmap string value * list event * result A.

#[export] Instance loader_ret : MRet loader := fun _ a d => (d, [], Ret a).

#[export] Instance loader_bind : MBind loader := fun _ _ k m d =>
  match m d with
  | (d', evs, Ret a) =>
      let '(d'', evs', r) := k a d' in (d'', evs ++ evs', r)
  | (d', evs, Raise e) => (d', evs, Raise e)
  end.

(** [key in subtype], returning the value when there. *)
Definition find (key : string) : loader (option value) :=
  fun d => (d, [], Ret (d !! key)).

(** [subtype[key]]. *)
Definition getitem (key : string) : loader value :=
  fun d =>
    match d !! key with
    | Some v => (d, [], Ret v)
    | None => (d, [], Raise (KeyError key))
    end.

(** [subtype[key] = v]. *)
Definition setitem (key : string) (v : value) : loader unit :=
  fun d => (<[key := v]> d, [], Ret tt).

(** [raise e]. *)
Definition throw {A : Type} (e : exn) : loader A :=
  fun d => (d, [], Raise e).

(** An external call: its events and its result, the dict untouched. *)
Definition call {A : Type} (c : list event * result A) : loader A :=
  fun d => (d, c.1, c.2).

(** Lines 101-102. *)
Definition exponentiate_lognorm_scale : loader unit :=
  dist_type ← getitem "dist_type";
  if eq_str dist_type "lognorm" return loader unit then
    dist_scale ← getitem "dist_scale";
    e ← call ([EExp dist_scale], np_exp dist_scale);
    setitem "dist_scale" e
  else mret tt.

(** Lines 103-104. *)
Definition promote_sigma : loader unit :=
  dist_sigma ← find "dist_sigma";
  match dist_sigma return loader unit with
  | Some sigma => setitem "dist_shape" (VList [sigma])
  | None => mret tt
  end.

(** Lines 105-109; the arguments are evaluated from left to right. *)
Definition attach_dist : loader unit :=
  dist_type ← getitem "dist_type";
  dist_shape ← getitem "dist_shape";
  dist_scale ← getitem "dist_scale";
  d ← call (fit_dist None dist_type (VInt 0) dist_shape dist_scale);
  setitem "leak_rate_dist" d.

(** Lines 111-113. *)
Definition attach_samples (wd : string) : loader unit :=
  file ← getitem "leak_rates_file";
  match file return loader unit with
  | VStr file =>
      rates ← call ([EReadCsv wd file], read_first_column wd file);
      setitem "empirical_leak_rates" (VArray rates)
  | _ => throw TypeError
  end.

(** Lines 100-113: the body of the loop, for one subtype. *)
Definition unpackage_subtype (wd : string) : loader unit :=
  source ← find "leak_rate_source";
  if match source with
     | None => true
     | Some v => eq_str v "dist"
     end
     return loader unit
  then
    _ ← exponentiate_lognorm_scale;
    _ ← promote_sigma;
    attach_dist
  else
    source ← getitem "leak_rate_source";
    if eq_str source "sample" return loader unit
    then attach_samples wd
    else mret tt.

(** Line 99: [program["subtypes"].items()], in insertion order.  When a
    subtype raises, the subtypes before it (and what was already written to
    it) stay mutated and the ones after it are not visited. *)
Fixpoint unpackage_subtypes (wd : string)
    (subtypes : list (string * gmap string value))
  : list (string * gmap string value) * list event * result unit :=
  match subtypes with
  | [] => ([], [], Ret tt)
  | (st_idx, subtype) :: rest =>
      match unpackage_subtype wd subtype with
      | (subtype', evs, Raise e) => ((st_idx, subtype') :: rest, evs, Raise e)
      | (subtype', evs, Ret _) =>
          let '(rest', evs', r) := unpackage_subtypes wd rest in
          ((st_idx, subtype') :: rest', evs ++ evs', r)
      end
  end.

(** The program dict, reduced to the entry the loader reads. *)
Record program : Type := { subtypes : list (string * gmap string value) }.

(** Lines 91-113. *)
Definition unpackage_dist (prog : program) (wd : string)
  : program * list event * result unit :=
  let '(sts, evs, r) := unpackage_subtypes wd (subtypes prog) in
  ({| subtypes := sts |}, evs, r).

End FitDist.

End Distributions.

(** ** utils/generic_functions.py *)

Module GenericFunctions.

(** *** gap_calculator *)

(** [np.where(condition_vector)[0]]: the indices of the true entries, in
    increasing order; [i] is the index of the head. *)
Fixpoint where_from (i : Z) (condition_vector : list bool) : list Z :=
  match condition_vector with
  | [] => []
  | b :: v => if b then i :: where_from (i + 1) v else where_from (i + 1) v
  end.

Definition np_where (condition_vector : list bool) : list Z :=
  where_from 0 condition_vector.

(** [max(generator)]: [ValueError] when there is nothing to take the maximum
    of. *)
Definition py_max (xs : list Z) : result Z :=
  match xs with
  | [] => Raise ValueError
  | x :: xs' => Ret (fold_left Z.max xs' x)
  end.

(** Lines 34-61.  [None] is Python's [None], the initial [max_gap]. *)
Definition gap_calculator (condition_vector : list bool) : result (option Z) :=
  let indices := np_where condition_vector in
  let len_vector := Z.of_nat (length condition_vector) in
  if (length indices =? 0)%nat then
    Ret (Some len_vector)
  else if (length indices =? 1)%nat then
    let start_gap := nth 0 indices 0 in
    let end_gap := len_vector - nth 0 indices 0 in
    Ret (Some (Z.max start_gap end_gap))
  else if negb (length (map (fun i => i >? 1) indices) =? 0)%nat then
    let start_gap := nth 0 indices 0 in
    mid_gap ← py_max (map (fun '(x, y) => Z.abs (x - y))
                          (combine (tl indices) (removelast indices)));
    let end_gap := len_vector - List.last indices 0 in
    Ret (Some (Z.max (Z.max start_gap mid_gap) end_gap))
  else Ret None.

(** The specification's reading, in its own terms.  The true entries of a
    sequence are the positions at which it holds [true]; the marks are the
    start of the sequence, its true entries and its end; a gap is the
    distance between two successive marks. *)
Definition true_entries (condition_vector : list bool) : list Z :=
  map Z.of_nat
      (List.filter (fun i => nth i condition_vector false)
                   (seq 0 (length condition_vector))).

Definition marks (condition_vector : list bool) : list Z :=
  0 :: true_entries condition_vector
    ++ [Z.of_nat (length condition_vector)].

Fixpoint successive_gaps (ms : list Z) : list Z :=
  match ms with
  | a :: (b :: _) as ms' => (b - a) :: successive_gaps ms'
  | _ => []
  end.

Definition max_gap_spec (condition_vector : list bool) : Z :=
  fold_right Z.max 0 (successive_gaps (marks condition_vector)).

(** *** init_orbit_poly *)

(** A naive [datetime] is its number of microseconds since
    0001-01-01T00:00:00; [datetime.max] is 9999-12-31T23:59:59.999999, the
    last microsecond of day 3652059. *)
Definition datetime_max : Z := 315537897599999999.

(** [datetime.timedelta(minutes=interval)] for an integer [interval], in
    microseconds; the day count of a timedelta is limited to nine digits. *)
Definition timedelta_minutes (interval : Z) : result Z :=
  let us := interval * 60000000 in
  if (-999999999 <=? us / 86400000000) && (us / 86400000000 <=? 999999999)
  then Ret us
  else Raise OverflowError.

(** [t + delta] on a datetime. *)
Definition datetime_add (t delta : Z) : result Z :=
  if (0 <=? t + delta) && (t + delta <=? datetime_max)
  then Ret (t + delta)
  else Raise OverflowError.

(** [shapely.geometry.Polygon]: the list of its corner points. *)
Record Polygon : Type := { exterior : list (float * float) }.

Section Orbit.

(** [predictor.get_position(t).position_ecef] and [ecef_to_llh] (lines
    180-210, floating-point trigonometry); either may raise. *)
Variable ecef : Type.
Variable get_position : Z -> result ecef.
Variable ecef_to_llh : ecef -> result (float * float * float).

(** 0.1 as a binary64 literal. *)
Definition tenth : float := 0x1.999999999999ap-4%float.

(** Lines 228-253: one pass through the loop body, giving the polygon that
    is appended and the next [T1]. *)
Definition orbit_step (T1 interval : Z) : result (Polygon * Z) :=
  ecef1 ← get_position T1;
  '(lat1, lon1, h1) ← ecef_to_llh ecef1;
  delta ← timedelta_minutes interval;
  st ← datetime_add T1 delta;
  ecef2 ← get_position st;
  '(lat2, lon2, h2) ← ecef_to_llh ecef2;
  let pt1 := (lon1, lat1 + tenth)%float in
  let pt2 := (lon1 + tenth, lat1)%float in
  let pt3 := (lon2, lat2 - tenth)%float in
  let pt4 := (lon2 - tenth, lat2)%float in
  let polygon3 := {| exterior := [pt1; pt2; pt3; pt4] |} in
  delta ← timedelta_minutes interval;
  T1' ← datetime_add T1 delta;
  mret (polygon3, T1').

(** Lines 227-255: the loop, with [fuel] bounding the number of passes;
    [None] when the guard still holds after [fuel] passes. *)
Fixpoint orbit_loop (fuel : nat) (T1 T2 interval : Z)
    (polygon_list : list Polygon) (day_list : list Z)
  : option (result (list Z * list Polygon)) :=
  if T1 =? T2 then Some (Ret (day_list, polygon_list))
  else
    match fuel with
    | O => None
    | S fuel' =>
        match orbit_step T1 interval with
        | Raise e => Some (Raise e)
        | Ret (polygon3, T1') =>
            orbit_loop fuel' T1' T2 interval
              (polygon_list ++ [polygon3]) (day_list ++ [T1])
        end
    end.

(** Lines 213-255. *)
Definition init_orbit_poly (fuel : nat) (T1 T2 interval : Z)
  : option (result (list Z * list Polygon)) :=
  orbit_loop fuel T1 T2 interval [] [].

End Orbit.

End GenericFunctions.

(** ** Stand-ins for the external calls

    Concrete functions to run the definitions on.  They play the part of
    the libraries in the examples below; the theorems hold for every choice
    of the external functions. *)

Module Examples.

(** A converter that halves, whatever the units. *)
Definition gas_convert (leaksize : float) (input_metric input_increment : string)
  : float := (leaksize / 2)%float.

(** Three scipy families and the number of their shape parameters. *)
Definition scipy_stats (name : string) : option nat :=
  if String.eqb name "lognorm" then Some 1%nat
  else if String.eqb name "norm" then Some 0%nat
  else if String.eqb name "beta" then Some 2%nat
  else None.

(** A fit that rejects an empty sample and any sample that is not positive,
    the error code telling how many samples it was given, and that keeps the
    location it is handed. *)
Definition dist_fit (family : string) (samples : list float) (floc : value)
  : result (list value) :=
  if negb (length samples =? 0)%nat
     && forallb (fun s => PrimFloat.ltb 0%float s) samples
  then Ret [VFloat 0.5%float; floc; VFloat 2%float]
  else Raise (LibError (length samples)).

(** A decoder for the JSON texts a shape is written as: a number, or a flat
    array of numbers, without exponents. *)
Definition is_digit (c : ascii) : bool :=
  let n := N_of_ascii c in ((48 <=? n) && (n <=? 57))%N.

Fixpoint read_digits (s : string) (acc : Z) (count : nat) : Z * nat * string :=
  match s with
  | String c s' =>
      if is_digit c
      then read_digits s' (10 * acc + (Z.of_N (N_of_ascii c) - 48)) (S count)
      else (acc, count, s)
  | EmptyString => (acc, count, s)
  end.

Definition float_of_Z (z : Z) : float := PrimFloat.of_uint63 (Uint63.of_Z z).

Definition read_unsigned (s : string) : option (value * bool * string) :=
  match read_digits s 0 0 with
  | (_, O, _) => None
  | (n, _, String "." s') =>
      match read_digits s' n 0 with
      | (_, O, _) => None
      | (m, k, s'') =>
          Some (VFloat (float_of_Z m / float_of_Z (10 ^ Z.of_nat k))%float,
                true, s'')
      end
  | (n, _, s') => Some (VInt n, false, s')
  end.

Definition read_number (s : string) : option (value * string) :=
  match s with
  | String "-" s' =>
      match read_unsigned s' with
      | Some (VInt n, _, rest) => Some (VInt (- n), rest)
      | Some (VFloat x, _, rest) => Some (VFloat (- x)%float, rest)
      | _ => None
      end
  | _ =>
      match read_unsigned s with
      | Some (v, _, rest) => Some (v, rest)
      | None => None
      end
  end.

Fixpoint skip_ws (s : string) : string :=
  match s with
  | String " " s' => skip_ws s'
  | _ => s
  end.

Fixpoint read_items (fuel : nat) (s : string) : option (list value * string) :=
  match fuel with
  | O => None
  | S fuel' =>
      match read_number (skip_ws s) with
      | None => None
      | Some (v, rest) =>
          match skip_ws rest with
          | String "," rest' =>
              match read_items fuel' rest' with
              | Some (vs, tail) => Some (v :: vs, tail)
              | None => None
              end
          | String "]" tail => Some ([v], tail)
          | _ => None
          end
      end
  end.

Definition json_loads (s : string) : result value :=
  match skip_ws s with
  | String "[" rest =>
      match skip_ws rest with
      | String "]" tail =>
          if String.eqb (skip_ws tail) "" then Ret (VList []) else Raise ValueError
      | _ =>
          match read_items (String.length rest) rest with
          | Some (items, tail) =>
              if String.eqb (skip_ws tail) "" then Ret (VList items)
              else Raise ValueError
          | None => Raise ValueError
          end
      end
  | s' =>
      match read_number s' with
      | Some (v, tail) =>
          if String.eqb (skip_ws tail) "" then Ret v else Raise ValueError
      | None => Raise ValueError
      end
  end.

(** An exponential on floats: the Taylor polynomial of degree 6, enough to
    tell one application from two. *)
Definition exp_poly (x : float) : float :=
  (1 + x * (1 + x / 2 * (1 + x / 3 * (1 + x / 4 * (1 + x / 5 * (1 + x / 6))))))%float.

Definition np_exp (v : value) : result value :=
  match v with
  | VFloat x => Ret (VFloat (exp_poly x))
  | VInt z => Ret (VFloat (exp_poly (float_of_Z z)))
  | _ => Raise TypeError
  end.

(** A working directory that holds one file of leak rates. *)
Definition read_first_column (wd file : string) : result (list float) :=
  if String.eqb file "leak_rates.csv" then Ret [0.5%float; 1.25%float; 3%float]
  else Raise (LibError 2).

(** A program of two subtypes, a parametric one without [leak_rate_source]
    and an empirical one, and a subtype with a source the loader does not
    know. *)
Definition valve : gmap string value :=
  {[ "dist_type" := VStr "lognorm";
     "dist_scale" := VFloat 1%float;
     "dist_sigma" := VFloat 1.5%float ]}.

Definition flange : gmap string value :=
  {[ "leak_rate_source" := VStr "sample";
     "leak_rates_file" := VStr "leak_rates.csv" ]}.

Definition pump : gmap string value :=
  {[ "leak_rate_source" := VStr "Sample";
     "leak_rates_file" := VStr "leak_rates.csv" ]}.

Definition facility : Distributions.program :=
  {| Distributions.subtypes := [("valve", valve); ("flange", flange)] |}.

(** The loader, run against the stand-ins. *)
Definition run_loader (prog : Distributions.program) (wd : string)
  : Distributions.program * list Distributions.event * result unit :=
  Distributions.unpackage_dist scipy_stats dist_fit json_loads np_exp
    read_first_column prog wd.

(** A satellite that stays over latitude 0, longitude 0 at height 500. *)
Definition get_position (t : Z) : result unit := Ret tt.

Definition ecef_to_llh (e : unit) : result (float * float * float) :=
  Ret (0%float, 0%float, 500%float).

End Examples.

(** ** utils/generic_functions.py, continued: geo_idx *)

Module Geo.

(** [ndarray.argmin()] on float64, one-dimensional: the first index of the
    least entry.  numpy scans with the test [not (entry >= least)], so a NaN
    entry counts as less than anything and ends the scan; an empty array
    raises [ValueError].  [mp] is the least entry so far, [min_ind] its
    index, [i] the index of the head of what is left. *)
Fixpoint argmin_from (mp : float) (min_ind i : nat) (ip : list float) : nat :=
  match ip with
  | [] => min_ind
  | x :: ip' =>
      if negb (PrimFloat.leb mp x)
      then if PrimFloat.is_nan x then i else argmin_from x i (S i) ip'
      else argmin_from mp min_ind (S i) ip'
  end.

Definition np_argmin (a : list float) : result nat :=
  match a with
  | [] => Raise ValueError
  | x :: a' => if PrimFloat.is_nan x then Ret 0%nat
               else Ret (argmin_from x 0 1 a')
  end.

(** Lines 141-150.  [dd_array - dd] and [np.abs] work entry by entry. *)
Definition geo_idx (dd : float) (dd_array : list float) : result nat :=
  np_argmin (map (fun x => PrimFloat.abs (x - dd)%float) dd_array).

End Geo.

(** ** utils/generic_functions.py, continued: quick_cal_daylight *)

Module Daylight.

(** A Python [int] as a float, exact below 2^53. *)
Definition float_of_int (z : Z) : float :=
  if z <? 0 then (- PrimFloat.of_uint63 (Uint63.of_Z (- z)))%float
  else PrimFloat.of_uint63 (Uint63.of_Z z).

(** The fields of [ephem.Observer] the function sets. *)
Record Observer (D : Type) : Type :=
  { pressure : Z; horizon : string; date : D; lat : string; lon : string }.

Arguments pressure {D}.
Arguments horizon {D}.
Arguments date {D}.
Arguments lat {D}.
Arguments lon {D}.

Section QuickCalDaylight.

(** Dates and coordinates as the caller passes them, [str] on a coordinate,
    and the hour and the minute of the datetimes that
    [obs.previous_rising(ephem.Sun(), use_center=True)] and
    [obs.next_setting(ephem.Sun(), use_center=True)] give; ephem raises
    where the sun does not rise or set. *)
Variable D C : Type.
Variable str : C -> string.
Variable previous_rising : Observer D -> result (Z * Z).
Variable next_setting : Observer D -> result (Z * Z).

(** Lines 153-177. *)
Definition quick_cal_daylight (date : D) (lat lon : C) : result (float * float) :=
  let obs := {| pressure := 0; horizon := "-6"; date := date;
                lat := str lat; lon := str lon |} in
  sunrise ← previous_rising obs;
  sunset ← next_setting obs;
  let sr := (float_of_int (sunrise.1 - 7) + float_of_int sunrise.2 / 100)%float in
  let ss := (float_of_int (sunset.1 + 17) + float_of_int sunset.2 / 100)%float in
  mret (sr, ss).

End QuickCalDaylight.

End Daylight.

(** ** utils/generic_functions.py, continued: ecef_to_llh *)

Module Ecef.

(** The errors of float arithmetic on top of the others. *)
Inductive error : Type :=
| ZeroDivisionError
| Other (e : exn).

Inductive outcome (A : Type) : Type :=
| Value (a : A)
| Error (e : error).

Arguments Value {A} a.
Arguments Error {A} e.

#[export] Instance outcome_ret : MRet outcome := fun _ a => Value a.

#[export] Instance outcome_bind : MBind outcome := fun _ _ k r =>
  match r with
  | Value a => k a
  | Error e => Error e
  end.

(** [x / y] on Python floats. *)
Definition div (x y : float) : outcome float :=
  if PrimFloat.eqb y 0%float then Error ZeroDivisionError
  else Value (x / y)%float.

(** [math.sqrt]: a domain error below zero. *)
Definition m_sqrt (x : float) : outcome float :=
  if PrimFloat.ltb x 0%float then Error (Other ValueError)
  else Value (PrimFloat.sqrt x).

(** [ecef_km[i]]. *)
Definition item (ecef_km : list float) (i : nat) : outcome float :=
  match nth_error ecef_km i with
  | Some x => Value x
  | None => Error (Other IndexError)
  end.

(** WGS-84 semi-major and semi-minor axes, 6378.1370 and 6356.752314 km, and
    the factor 180 / pi of [math.degrees], as binary64 literals. *)
Definition a : float := 0x1.8ea23126e978dp+12%float.
Definition b : float := 0x1.8d4c097a67a53p+12%float.
Definition rad_to_deg : float := 0x1.ca5dc1a63c1f8p+5%float.

Definition degrees (x : float) : float := (x * rad_to_deg)%float.

Section EcefToLlh.

(** The C library behind [math.sin], [math.cos] (a domain error at
    infinity), [math.atan], [math.atan2] and float [**] (a range error on
    overflow). *)
Variable m_sin m_cos : float -> outcome float.
Variable m_atan : float -> float.
Variable m_atan2 : float -> float -> float.
Variable float_pow : float -> float -> outcome float.

(** Lines 180-210; operands are evaluated from left to right. *)
Definition ecef_to_llh (ecef_km : list float) : outcome (float * float * float) :=
  x ← item ecef_km 0;
  x2 ← float_pow x 2%float;
  y ← item ecef_km 1;
  y2 ← float_pow y 2%float;
  p ← m_sqrt (x2 + y2)%float;
  z ← item ecef_km 2;
  q ← div (z * a)%float (p * b)%float;
  let thet := m_atan q in
  ba ← div b a;
  ba2 ← float_pow ba 2%float;
  let esq := (1 - ba2)%float in
  ab ← div a b;
  ab2 ← float_pow ab 2%float;
  let epsq := (ab2 - 1)%float in
  z ← item ecef_km 2;
  s ← m_sin thet;
  s3 ← float_pow s 3%float;
  c ← m_cos thet;
  c3 ← float_pow c 3%float;
  q ← div (z + epsq * b * s3)%float (p - esq * a * c3)%float;
  let lat := m_atan q in
  y ← item ecef_km 1;
  x ← item ecef_km 0;
  let lon := m_atan2 y x in
  c ← m_cos lat;
  c2 ← float_pow c 2%float;
  b2 ← float_pow b 2%float;
  s ← m_sin lat;
  s2 ← float_pow s 2%float;
  r ← m_sqrt (a * a * c2 + b2 * s2)%float;
  n ← div (a * a)%float r;
  c ← m_cos lat;
  pc ← div p c;
  let h := (pc - n)%float in
  mret (degrees lat, degrees lon, h).

End EcefToLlh.

End Ecef.

(** ** Further stand-ins *)

Module MoreExamples.

(** A fit that returns a single number, where scipy returns at least a
    location and a scale. *)
Definition short_fit (family : string) (samples : list float) (floc : value)
  : result (list value) := Ret [VFloat 1%float].

(** A subtype whose file of leak rates is not in the working directory, a
    lognorm subtype without shape, and a program that holds the first
    between two subtypes that load. *)
Definition gauge : gmap string value :=
  {[ "leak_rate_source" := VStr "sample";
     "leak_rates_file" := VStr "gauge_rates.csv" ]}.

Definition meter : gmap string value :=
  {[ "leak_rate_source" := VStr "dist";
     "dist_type" := VStr "lognorm";
     "dist_scale" := VFloat 1%float ]}.

Definition plant : Distributions.program :=
  {| Distributions.subtypes :=
      [("valve", Examples.valve); ("gauge", gauge); ("flange", Examples.flange)] |}.

(** The valve of the example program as the loader leaves it. *)
Definition loaded_valve : gmap string value :=
  <["leak_rate_dist" := VFrozen "lognorm" [VFloat 1.5%float] (VInt 0)
                          (VFloat (Examples.exp_poly 1))]>
    (<["dist_shape" := VList [VFloat 1.5%float]]>
       (<["dist_scale" := VFloat (Examples.exp_poly 1)]> Examples.valve)).

(** The latitude 10.123 of the unit test of [geo_idx], as a binary64
    literal. *)
Definition dd : float := 0x1.43ef9db22d0e5p+3%float.

(** A satellite that moves one degree east and half a degree north per
    minute, seen from the time alone. *)
Definition ground (t : Z) : float * float * float :=
  let minutes := Examples.float_of_Z (t / 60000000) in
  ((minutes / 2)%float, minutes, 500%float).

Definition get_position (t : Z) : result Z := Ret t.

Definition ecef_to_llh (t : Z) : result (float * float * float) :=
  Ret (ground t).

(** An observer for whom the sun rose at 12:41 UTC and sets at 03:07 UTC,
    wherever they are. *)
Definition str (c : Z) : string := "0".

Definition previous_rising (obs : Daylight.Observer Z) : result (Z * Z) :=
  Ret (12, 41).

Definition next_setting (obs : Daylight.Observer Z) : result (Z * Z) :=
  Ret (3, 7).

(** Float arithmetic in place of the C library: powers by repeated
    multiplication, with the range error of [**], and polynomials for the
    sine, the cosine and the arc tangent near zero. *)
Definition float_pow (x n : float) : Ecef.outcome float :=
  let r := if PrimFloat.eqb n 2%float then (x * x)%float
           else if PrimFloat.eqb n 3%float then (x * x * x)%float
           else nan in
  if PrimFloat.eqb (PrimFloat.abs r) infinity
     && negb (PrimFloat.eqb (PrimFloat.abs x) infinity)
  then Ecef.Error (Ecef.Other OverflowError)
  else Ecef.Value r.

Definition m_sin (x : float) : Ecef.outcome float :=
  if PrimFloat.eqb (PrimFloat.abs x) infinity
  then Ecef.Error (Ecef.Other ValueError)
  else Ecef.Value (x * (1 - x * x / 6 * (1 - x * x / 20)))%float.

Definition m_cos (x : float) : Ecef.outcome float :=
  if PrimFloat.eqb (PrimFloat.abs x) infinity
  then Ecef.Error (Ecef.Other ValueError)
  else Ecef.Value (1 - x * x / 2 * (1 - x * x / 12))%float.

Definition m_atan (x : float) : float :=
  (x * (1 - x * x / 3 * (1 - x * x * 3 / 5)))%float.

Definition m_atan2 (y x : float) : float := m_atan (y / x)%float.

Definition llh (ecef_km : list float) : Ecef.outcome (float * float * float) :=
  Ecef.ecef_to_llh m_sin m_cos m_atan m_atan2 float_pow ecef_km.

End MoreExamples.

(** ** Notions used to state further properties *)

Module Notions.

(** A step of the loader keeps a key when the dict it leaves holds under
    that key what the dict it was given held, however the step ends. *)
Definition keeps (key : string) {A : Type} (m : Distributions.loader A) : Prop :=
  forall d d' evs r, m d = (d', evs, r) -> d' !! key = d !! key.

(** The keys no step of the loader writes: all but the four it assigns. *)
Definition unwritten (key : string) : Prop :=
  key <> "dist_scale" /\ key <> "dist_shape"
  /\ key <> "leak_rate_dist" /\ key <> "empirical_leak_rates".

(** The polygon [init_orbit_poly] draws between two ground points, each
    given as (latitude, longitude, height). *)
Definition coverage (g1 g2 : float * float * float) : GenericFunctions.Polygon :=
  let '(lat1, lon1, _) := g1 in
  let '(lat2, lon2, _) := g2 in
  {| GenericFunctions.exterior :=
      [(lon1, lat1 + GenericFunctions.tenth)%float;
       ((lon1 + GenericFunctions.tenth)%float, lat1);
       (lon2, lat2 - GenericFunctions.tenth)%float;
       ((lon2 - GenericFunctions.tenth)%float, lat2)] |}.

(** The order of floats read off their parts: a float that is not NaN has
    a key, and keys compare as triples, first entry first. *)
Definition float_key (f : spec_float) : option (Z * Z * Z) :=
  match f with
  | S754_nan => None
  | S754_infinity true => Some (-2, 0, 0)
  | S754_infinity false => Some (2, 0, 0)
  | S754_zero _ => Some (0, 0, 0)
  | S754_finite false m e => Some (1, e, Zpos m)
  | S754_finite true m e => Some (-1, - e, Zneg m)
  end.

Definition key_compare (a b : Z * Z * Z) : comparison :=
  match a.1.1 ?= b.1.1 with
  | Eq => match a.1.2 ?= b.1.2 with
          | Eq => a.2 ?= b.2
          | c => c
          end
  | c => c
  end.

End Notions.

(** * Properties *)

(** ** Order on floats *)

Section FloatOrder.

Lemma SFcompare_lt_gt (x y : spec_float) :
  SFcompare x y = Some Lt -> SFcompare y x = Some Gt.
Proof.
  destruct x as [sx|sx| |sx mx ex], y as [sy|sy| |sy my ey]; cbn;
    try destruct sx; try destruct sy; try discriminate; try reflexivity.
  - rewrite (Z.compare_antisym ey ex).
    destruct (ey ?= ex)%Z; cbn; try discriminate; try reflexivity.
    pose proof (Pos.compare_cont_antisym mx my Eq) as H.
    cbn [CompOpp] in H. rewrite <- H.
    destruct (Pos.compare_cont Eq mx my); cbn; try discriminate; reflexivity.
  - rewrite (Z.compare_antisym ey ex).
    destruct (ey ?= ex)%Z; cbn; try discriminate; try reflexivity.
    pose proof (Pos.compare_cont_antisym mx my Eq) as H.
    cbn [CompOpp] in H. rewrite <- H.
    destruct (Pos.compare_cont Eq mx my); cbn; try discriminate; reflexivity.
Qed.

(** [v < m] excludes [m <= v]. *)
Lemma float_lt_not_ge (v m : float) :
  PrimFloat.ltb v m = true -> PrimFloat.leb m v = false.
Proof.
  rewrite ltb_spec, leb_spec. unfold SFltb, SFleb.
  destruct (SFcompare (Prim2SF v) (Prim2SF m)) as [[| |]|] eqn:E;
    try discriminate.
  intros _. rewrite (SFcompare_lt_gt _ _ E). reflexivity.
Qed.

End FloatOrder.

(** ** gap_calculator *)

Section GapCalculator.

Import GenericFunctions.

Lemma where_from_bounds (v : list bool) (i : Z) :
  Forall (fun x => i <= x < i + Z.of_nat (length v)) (where_from i v).
Proof.
  revert i. induction v as [|b v IH]; intros i; simpl; [constructor|].
  assert (Htl : Forall (fun x => i <= x < i + Z.of_nat (S (length v)))
                       (where_from (i + 1) v)).
  { eapply List.Forall_impl; [|apply IH]. simpl. intros x Hx. lia. }
  destruct b; [constructor; [lia|]|]; exact Htl.
Qed.

Lemma where_from_sorted (v : list bool) (i : Z) :
  StronglySorted Z.lt (where_from i v).
Proof.
  revert i. induction v as [|b v IH]; intros i; simpl; [constructor|].
  destruct b; [|apply IH].
  constructor; [apply IH|].
  eapply List.Forall_impl; [|apply where_from_bounds]. simpl. intros x Hx. lia.
Qed.

Lemma fold_left_max_base (xs : list Z) (a : Z) :
  0 <= a -> fold_left Z.max xs a = Z.max a (fold_right Z.max 0 xs).
Proof.
  revert a. induction xs as [|x xs IH]; intros a Ha; simpl; [lia|].
  rewrite IH by lia. lia.
Qed.

Lemma fold_right_max_nonneg (l : list Z) : 0 <= fold_right Z.max 0 l.
Proof. induction l; simpl; lia. Qed.

Lemma fold_right_max_app (xs ys : list Z) :
  fold_right Z.max 0 (xs ++ ys)
  = Z.max (fold_right Z.max 0 xs) (fold_right Z.max 0 ys).
Proof.
  induction xs as [|x xs IH]; simpl.
  - pose proof (fold_right_max_nonneg ys). lia.
  - rewrite IH. lia.
Qed.

Lemma zip_diffs_successive (l : list Z) :
  StronglySorted Z.lt l ->
  map (fun '(x, y) => Z.abs (x - y)) (combine (tl l) (removelast l))
  = successive_gaps l.
Proof.
  induction l as [|a [|b r] IH]; intros Hs; [reflexivity..|].
  change (tl (a :: b :: r)) with (b :: r).
  change (removelast (a :: b :: r)) with (a :: removelast (b :: r)).
  change (combine (b :: r) (a :: removelast (b :: r)))
    with ((b, a) :: combine (tl (b :: r)) (removelast (b :: r))).
  inversion Hs as [|? ? Hs' Ha]; subst.
  inversion Ha; subst.
  cbn [map]. rewrite IH by assumption.
  cbn [successive_gaps]. f_equal. lia.
Qed.

Lemma successive_gaps_snoc (l : list Z) (a n : Z) :
  successive_gaps ((a :: l) ++ [n])
  = successive_gaps (a :: l) ++ [n - List.last (a :: l) 0].
Proof.
  revert a. induction l as [|b l IH]; intros a; [reflexivity|].
  change (successive_gaps ((a :: b :: l) ++ [n]))
    with ((b - a) :: successive_gaps ((b :: l) ++ [n])).
  rewrite IH. reflexivity.
Qed.

Lemma last_in_list (l : list Z) (a : Z) : In (List.last (a :: l) 0) (a :: l).
Proof.
  revert a. induction l as [|b l IH]; intros a; [left; reflexivity|].
  right. apply IH.
Qed.

(** [np.where] finds the true entries. *)
Lemma where_from_true_entries (v : list bool) (i : Z) :
  where_from i v
  = map (fun k => i + Z.of_nat k)
        (List.filter (fun k => nth k v false) (seq 0 (length v))).
Proof.
  revert i. induction v as [|b v IH]; intros i; [reflexivity|].
  cbn [length seq List.filter nth where_from].
  rewrite <- seq_shift, List.filter_map_swap, IH.
  assert (E : map (fun k => i + 1 + Z.of_nat k)
                  (List.filter (fun k => nth k v false) (seq 0 (length v)))
              = map (fun k => i + Z.of_nat k)
                    (map S (List.filter (fun k => nth (S k) (b :: v) false)
                                        (seq 0 (length v))))).
  { rewrite map_map. apply map_ext. intros k. lia. }
  rewrite E. destruct b; cbn [map]; [f_equal; lia|reflexivity].
Qed.

Lemma np_where_true_entries (condition_vector : list bool) :
  np_where condition_vector = true_entries condition_vector.
Proof.
  unfold np_where, true_entries. rewrite where_from_true_entries.
  apply map_ext. intros k. lia.
Qed.

Lemma gap_calculator_refines (condition_vector : list bool) :
  gap_calculator condition_vector = Ret (Some (max_gap_spec condition_vector)).
Proof.
  unfold gap_calculator, max_gap_spec, marks.
  rewrite <- np_where_true_entries. unfold np_where.
  pose proof (where_from_bounds condition_vector 0) as Hb.
  pose proof (where_from_sorted condition_vector 0) as Hs.
  set (n := Z.of_nat (length condition_vector)) in *.
  assert (Hn : 0 <= n) by (subst n; lia).
  destruct (where_from 0 condition_vector) as [|i0 [|i1 r]] eqn:E.
  - simpl. do 2 f_equal. lia.
  - inversion Hb as [|? ? Hi _]; subst. simpl. do 2 f_equal. lia.
  - assert (Hlen : (length (i0 :: i1 :: r) =? 0)%nat = false) by reflexivity.
    assert (Hlen1 : (length (i0 :: i1 :: r) =? 1)%nat = false) by reflexivity.
    rewrite Hlen, Hlen1. rewrite length_map, Hlen.
    rewrite zip_diffs_successive by assumption.
    change (successive_gaps (i0 :: i1 :: r))
      with ((i1 - i0) :: successive_gaps (i1 :: r)).
    cbn [negb py_max mbind result_bind].
    change (0 :: (i0 :: i1 :: r) ++ [n]) with (0 :: ((i0 :: i1 :: r) ++ [n])).
    change (successive_gaps (0 :: ((i0 :: i1 :: r) ++ [n])))
      with ((i0 - 0) :: successive_gaps ((i0 :: i1 :: r) ++ [n])).
    rewrite successive_gaps_snoc.
    cbn [fold_right]. rewrite fold_right_max_app.
    change (successive_gaps (i0 :: i1 :: r))
      with ((i1 - i0) :: successive_gaps (i1 :: r)).
    cbn [fold_right nth].
    pose proof (last_in_list (i1 :: r) i0) as Hin.
    rewrite List.Forall_forall in Hb. apply Hb in Hin.
    inversion Hs as [|? ? Hs' Ha]; subst. inversion Ha; subst.
    rewrite fold_left_max_base by lia.
    pose proof (fold_right_max_nonneg (successive_gaps (i1 :: r))).
    do 2 f_equal. lia.
Qed.

Lemma where_from_all_false (n : nat) (i : Z) : where_from i (repeat false n) = [].
Proof. revert i. induction n as [|n IH]; intros i; simpl; auto. Qed.

Lemma where_from_app (u v : list bool) (i : Z) :
  where_from i (u ++ v)
  = where_from i u ++ where_from (i + Z.of_nat (length u)) v.
Proof.
  revert i. induction u as [|b u IH]; intros i.
  - simpl. f_equal. lia.
  - cbn [app where_from length]. rewrite IH.
    replace (i + 1 + Z.of_nat (length u)) with (i + Z.of_nat (S (length u)))
      by lia.
    destruct b; reflexivity.
Qed.

Lemma where_single_true (i k : nat) :
  np_where (repeat false i ++ true :: repeat false k) = [Z.of_nat i].
Proof.
  unfold np_where. rewrite where_from_app, where_from_all_false.
  rewrite repeat_length. simpl. rewrite where_from_all_false. reflexivity.
Qed.

Lemma marks_gaps_nonneg (condition_vector : list bool) :
  Forall (fun g => 0 <= g) (successive_gaps (marks condition_vector)).
Proof.
  unfold marks. rewrite <- np_where_true_entries. unfold np_where.
  pose proof (where_from_bounds condition_vector 0) as Hb.
  pose proof (where_from_sorted condition_vector 0) as Hs.
  set (n := Z.of_nat (length condition_vector)) in *.
  assert (Hn : 0 <= n) by (subst n; lia).
  revert Hb Hs. generalize (where_from 0 condition_vector) as idx.
  assert (H : forall idx a, a <= n ->
            Forall (fun x => a <= x < 0 + n) idx -> StronglySorted Z.lt idx ->
            Forall (fun g => 0 <= g) (successive_gaps (a :: idx ++ [n]))).
  { induction idx as [|b idx IH]; intros a Ha Hb Hs.
    - simpl. repeat constructor. lia.
    - inversion Hb as [|? ? Hb1 Hb2]; subst.
      inversion Hs as [|? ? Hs1 Hs2]; subst.
      change (successive_gaps (a :: (b :: idx) ++ [n]))
        with ((b - a) :: successive_gaps (b :: idx ++ [n])).
      constructor; [lia|].
      apply IH; [lia| |assumption].
      rewrite List.Forall_forall in Hs2 |- *. intros x Hx.
      specialize (Hs2 x Hx). rewrite List.Forall_forall in Hb2.
      specialize (Hb2 x Hx). lia. }
  intros idx Hb Hs. apply H; [lia| |assumption].
  eapply List.Forall_impl; [|exact Hb]. simpl. intros x Hx. lia.
Qed.

Lemma fold_right_max_upper (l : list Z) :
  Forall (fun g => g <= fold_right Z.max 0 l) l.
Proof.
  induction l as [|x l IH]; simpl; constructor; [lia|].
  eapply List.Forall_impl; [|exact IH]. simpl. intros y Hy. lia.
Qed.

Lemma fold_right_max_attained (l : list Z) :
  l <> [] -> Forall (fun g => 0 <= g) l -> In (fold_right Z.max 0 l) l.
Proof.
  induction l as [|x [|y l] IH]; intros Hne Hpos; [congruence| |].
  - inversion Hpos; subst. left. simpl. lia.
  - inversion Hpos as [|? ? Hx Hpos']; subst.
    cbn [fold_right] in *.
    destruct (Z.max_spec x (Z.max y (fold_right Z.max 0 l))) as [[_ E]|[_ E]];
      rewrite E; [right; apply IH; [discriminate|assumption]|left; reflexivity].
Qed.

(** C8: [gap_calculator] returns the largest distance between successive
    marks, the marks being the start of the vector, its true entries and its
    end; that value bounds every such distance and is one of them.  An
    all-false vector of length N gives N, a single true entry at index i of
    a vector of length n gives the larger of i and n - i (so N for index 0
    of length N), and true entries at 2, 5 and 9 of a length-10 vector
    give 4. *)
Theorem gap_calculator_max_gap :
  (forall cv : list bool,
      gap_calculator cv = Ret (Some (max_gap_spec cv))
      /\ Forall (fun g => g <= max_gap_spec cv) (successive_gaps (marks cv))
      /\ In (max_gap_spec cv) (successive_gaps (marks cv)))
  /\ (forall N : nat,
        gap_calculator (repeat false N) = Ret (Some (Z.of_nat N)))
  /\ (forall i k : nat,
        gap_calculator (repeat false i ++ true :: repeat false k)
        = Ret (Some (Z.max (Z.of_nat i) (Z.of_nat (i + 1 + k) - Z.of_nat i))))
  /\ (forall k : nat,
        gap_calculator (true :: repeat false k) = Ret (Some (Z.of_nat (S k))))
  /\ gap_calculator
       [false; false; true; false; false; true; false; false; false; true]
     = Ret (Some 4).
Proof.
  assert (Hsingle : forall i k : nat,
    gap_calculator (repeat false i ++ true :: repeat false k)
    = Ret (Some (Z.max (Z.of_nat i) (Z.of_nat (i + 1 + k) - Z.of_nat i)))).
  { intros i k. unfold gap_calculator. rewrite where_single_true.
    cbn [length Nat.eqb nth]. do 3 f_equal.
    rewrite length_app, repeat_length. simpl. rewrite repeat_length. lia. }
  repeat split.
  - apply gap_calculator_refines.
  - apply fold_right_max_upper.
  - apply fold_right_max_attained; [|apply marks_gaps_nonneg].
    unfold marks. destruct (true_entries cv); discriminate.
  - intros N. unfold gap_calculator, np_where.
    rewrite where_from_all_false, repeat_length. reflexivity.
  - exact Hsingle.
  - intros k. change (true :: repeat false k)
      with (repeat false 0 ++ true :: repeat false k).
    rewrite (Hsingle 0%nat k). do 2 f_equal; lia.
Qed.

End GapCalculator.

(** ** leak_rvs *)

Section LeakRvsFacts.

Import Distributions.

Variable gas_convert : float -> string -> string -> float.

Local Abbreviation convert := (convert gas_convert).
Local Abbreviation leak_rvs := (leak_rvs gas_convert).

Lemma convert_none (x : float) : convert None x = ([], Ret x).
Proof. reflexivity. Qed.

Lemma convert_pair (metric increment : string) (x : float) :
  convert (Some [metric; increment]) x
  = if negb (String.eqb (lower metric) "gram")
       && negb (String.eqb (lower increment) "second")
    then ([EGasConvert x metric increment], Ret (gas_convert x metric increment))
    else ([], Ret x).
Proof.
  unfold Distributions.convert.
  destruct (String.eqb (lower metric) "gram"),
           (String.eqb (lower increment) "second"); reflexivity.
Qed.

Lemma leak_rvs_cons (draw : float) (rvs : list float) (max_size : option float)
    (gp : option (list string)) :
  leak_rvs (draw :: rvs) max_size gp
  = match convert gp draw with
    | (evs, Raise e) => (evs, Some (Raise e))
    | (evs, Ret leaksize) =>
        if negb (truthy_max max_size) || below_max leaksize max_size
        then (evs, Some (Ret (leaksize, rvs)))
        else (evs ++ (leak_rvs rvs max_size gp).1, (leak_rvs rvs max_size gp).2)
    end.
Proof.
  cbn [Distributions.leak_rvs].
  destruct (convert gp draw) as [evs [leaksize|e]]; [|reflexivity].
  destruct (negb (truthy_max max_size) || below_max leaksize max_size);
    [reflexivity|].
  destruct (leak_rvs rvs max_size gp); reflexivity.
Qed.

(** Whatever [leak_rvs] returns is the converted image of one draw; the
    draws before it were converted and rejected, the draws after it are
    left in the source. *)
Lemma leak_rvs_returns_inv (rvs : list float) (max_size : option float)
    (gp : option (list string)) (v : float) (rest : list float) :
  (leak_rvs rvs max_size gp).2 = Some (Ret (v, rest)) ->
  exists rejected draw,
    rvs = rejected ++ draw :: rest
    /\ (convert gp draw).2 = Ret v
    /\ negb (truthy_max max_size) || below_max v max_size = true
    /\ Forall (fun y => exists w, (convert gp y).2 = Ret w
                        /\ negb (truthy_max max_size) || below_max w max_size
                           = false) rejected
    /\ (leak_rvs rvs max_size gp).1
       = concat (map (fun y => (convert gp y).1) (rejected ++ [draw])).
Proof.
  induction rvs as [|x rvs IH]; [discriminate|].
  rewrite leak_rvs_cons.
  destruct (convert gp x) as [evs [w|e]] eqn:Ec; [|discriminate].
  destruct (negb (truthy_max max_size) || below_max w max_size) eqn:Eacc.
  - cbn [snd fst]. intros [= -> ->].
    exists [], x. cbn. rewrite Ec. cbn. rewrite app_nil_r.
    repeat split; auto.
  - cbn [snd fst]. intros Hr. destruct (IH Hr) as (rej & d & -> & Hd & Hacc & Hrej & Hev).
    exists (x :: rej), d. repeat split; auto.
    + constructor; [|assumption]. exists w. rewrite Ec. auto.
    + rewrite Hev. cbn. rewrite Ec. reflexivity.
Qed.

(** Conversely, the first draw that passes the test is returned. *)
Lemma leak_rvs_accepts (rejected : list float) (draw : float)
    (rest : list float) (max_size : option float) (gp : option (list string))
    (v : float) :
  (convert gp draw).2 = Ret v ->
  negb (truthy_max max_size) || below_max v max_size = true ->
  Forall (fun y => exists w, (convert gp y).2 = Ret w
                      /\ negb (truthy_max max_size) || below_max w max_size
                         = false) rejected ->
  (leak_rvs (rejected ++ draw :: rest) max_size gp).2 = Some (Ret (v, rest)).
Proof.
  intros Hd Hacc Hrej.
  induction Hrej as [|y rej (w & Hw & Hno) _ IH].
  - cbn [app]. rewrite leak_rvs_cons.
    destruct (convert gp draw) as [evs [u|e]]; cbn in Hd; [|discriminate].
    injection Hd as ->. rewrite Hacc. reflexivity.
  - cbn [app]. rewrite leak_rvs_cons.
    destruct (convert gp y) as [evs [u|e]]; cbn in Hw; [|discriminate].
    injection Hw as ->. rewrite Hno. exact IH.
Qed.

(** With no conversion pair nothing is converted, whatever the bound. *)
Lemma leak_rvs_none_events (rvs : list float) (max_size : option float) :
  (leak_rvs rvs max_size None).1 = [].
Proof.
  induction rvs as [|x rvs IH]; [reflexivity|].
  rewrite leak_rvs_cons, convert_none.
  destruct (negb (truthy_max max_size) || below_max x max_size);
    [reflexivity|]. exact IH.
Qed.

(** A pair that fails the guard behaves as no pair at all. *)
Lemma leak_rvs_guard_false (rvs : list float) (max_size : option float)
    (metric increment : string) :
  negb (String.eqb (lower metric) "gram")
  && negb (String.eqb (lower increment) "second") = false ->
  leak_rvs rvs max_size (Some [metric; increment]) = leak_rvs rvs max_size None.
Proof.
  intros Hg. induction rvs as [|x rvs IH]; [reflexivity|].
  rewrite !leak_rvs_cons, convert_pair, convert_none, Hg, IH. reflexivity.
Qed.

(** C1, amended: for a bound [m] other than zero, a value that [leak_rvs]
    returns is strictly less than [m], hence not greater than or equal to
    it; [leak_rvs] returns exactly when some draw
    converts to a value below [m], and then it returns the first such value,
    the draws before it having been converted, found not below [m] and
    discarded. *)
Theorem leak_rvs_below_max (rvs : list float) (m : float)
    (gp : option (list string)) (v : float) (rest : list float) :
  PrimFloat.eqb m 0%float = false ->
  ((leak_rvs rvs (Some m) gp).2 = Some (Ret (v, rest)) ->
   PrimFloat.ltb v m = true /\ PrimFloat.leb m v = false)
  /\ ((leak_rvs rvs (Some m) gp).2 = Some (Ret (v, rest)) <->
      exists rejected draw,
        rvs = rejected ++ draw :: rest
        /\ (convert gp draw).2 = Ret v
        /\ PrimFloat.ltb v m = true
        /\ Forall (fun y => exists w, (convert gp y).2 = Ret w
                            /\ PrimFloat.ltb w m = false) rejected).
Proof.
  intros Hm.
  assert (Hacc : forall w,
             negb (truthy_max (Some m)) || below_max w (Some m)
             = PrimFloat.ltb w m).
  { intros w. cbn. rewrite Hm. reflexivity. }
  assert (Hinv : (leak_rvs rvs (Some m) gp).2 = Some (Ret (v, rest)) ->
    exists rejected draw,
        rvs = rejected ++ draw :: rest
        /\ (convert gp draw).2 = Ret v
        /\ PrimFloat.ltb v m = true
        /\ Forall (fun y => exists w, (convert gp y).2 = Ret w
                            /\ PrimFloat.ltb w m = false) rejected).
  { intros Hr.
    destruct (leak_rvs_returns_inv _ _ _ _ _ Hr)
      as (rej & d & E & Hd & Hv & Hrej & _).
    exists rej, d. rewrite Hacc in Hv. repeat split; auto.
    eapply List.Forall_impl; [|exact Hrej].
    cbv beta. intros y (w & Hw & Hno). exists w. rewrite Hacc in Hno. auto. }
  split; [|split; [exact Hinv|]].
  - intros Hr. destruct (Hinv Hr) as (? & ? & _ & _ & Hv & _).
    split; [exact Hv|apply float_lt_not_ge, Hv].
  - intros (rej & d & -> & Hd & Hv & Hrej).
    apply leak_rvs_accepts; [assumption|rewrite Hacc; assumption|].
    eapply List.Forall_impl; [|exact Hrej].
    cbv beta. intros y (w & Hw & Hno). exists w. rewrite Hacc. auto.
Qed.

(** C2: with a pair [metric, increment], every draw that is taken is
    converted exactly when [metric] is not "gram" and [increment] is not
    "second", both lowered first; a pair that fails the test, and no pair at
    all, leave the draws as they are and call the converter not once. *)
Theorem leak_rvs_converts_iff (rvs : list float) (max_size : option float)
    (metric increment : string) (v : float) (rest : list float) :
  (leak_rvs rvs max_size None).1 = []
  /\ ((leak_rvs rvs max_size None).2 = Some (Ret (v, rest)) ->
      exists rejected, rvs = rejected ++ v :: rest)
  /\ (negb (String.eqb (lower metric) "gram")
      && negb (String.eqb (lower increment) "second") = false ->
      leak_rvs rvs max_size (Some [metric; increment])
      = leak_rvs rvs max_size None)
  /\ (String.eqb (lower metric) "gram" = true ->
      leak_rvs rvs max_size (Some [metric; increment])
      = leak_rvs rvs max_size None)
  /\ (negb (String.eqb (lower metric) "gram")
      && negb (String.eqb (lower increment) "second") = true ->
      (leak_rvs rvs max_size (Some [metric; increment])).2
      = Some (Ret (v, rest)) ->
      exists rejected draw,
        rvs = rejected ++ draw :: rest
        /\ v = gas_convert draw metric increment
        /\ (leak_rvs rvs max_size (Some [metric; increment])).1
           = map (fun x => EGasConvert x metric increment)
                 (rejected ++ [draw])).
Proof.
  split; [apply leak_rvs_none_events|].
  split.
  { intros Hr.
    destruct (leak_rvs_returns_inv _ _ _ _ _ Hr) as (rej & d & E & Hd & _).
    rewrite convert_none in Hd. injection Hd as ->. eauto. }
  split; [apply leak_rvs_guard_false|].
  split.
  { intros Hg. apply leak_rvs_guard_false. rewrite Hg. reflexivity. }
  intros Hg Hr.
  destruct (leak_rvs_returns_inv _ _ _ _ _ Hr) as (rej & d & E & Hd & _ & _ & Hev).
  exists rej, d. rewrite convert_pair, Hg in Hd. injection Hd as <-.
  repeat split; auto.
  rewrite Hev. generalize (rej ++ [d]) as l.
  induction l as [|y l IH]; [reflexivity|].
  cbn [map concat]. rewrite convert_pair, Hg, IH. reflexivity.
Qed.

(** C9: a bound of zero is no bound.  [leak_rvs] with [max_size = 0] behaves
    as with no [max_size] on every source of draws, and it returns the first
    draw, converted if the pair asks for it, without comparing it with
    anything: 2.5 is returned although 0 <= 2.5. *)
Theorem leak_rvs_zero_is_no_bound :
  (forall rvs gp, leak_rvs rvs (Some 0%float) gp = leak_rvs rvs None gp)
  /\ (forall draw rest gp,
        leak_rvs (draw :: rest) (Some 0%float) gp
        = match convert gp draw with
          | (evs, Ret leaksize) => (evs, Some (Ret (leaksize, rest)))
          | (evs, Raise e) => (evs, Some (Raise e))
          end)
  /\ (forall rest,
        leak_rvs (2.5%float :: rest) (Some 0%float) None
        = ([], Some (Ret (2.5%float, rest)))
        /\ PrimFloat.leb 0%float 2.5%float = true).
Proof.
  assert (Hcons : forall draw rest gp,
        leak_rvs (draw :: rest) (Some 0%float) gp
        = match convert gp draw with
          | (evs, Ret leaksize) => (evs, Some (Ret (leaksize, rest)))
          | (evs, Raise e) => (evs, Some (Raise e))
          end).
  { intros draw rest gp. rewrite leak_rvs_cons.
    destruct (convert gp draw) as [evs [w|e]]; reflexivity. }
  split; [|split; [exact Hcons|]].
  - intros rvs gp. destruct rvs as [|x rvs]; [reflexivity|].
    rewrite Hcons, leak_rvs_cons.
    destruct (convert gp x) as [evs [w|e]]; reflexivity.
  - intros rest. split; reflexivity.
Qed.

End LeakRvsFacts.

(** ** init_orbit_poly *)

Section OrbitFacts.

Import GenericFunctions.

Variable ecef : Type.
Variable get_position : Z -> result ecef.
Variable ecef_to_llh : ecef -> result (float * float * float).

Local Abbreviation orbit_step := (orbit_step ecef get_position ecef_to_llh).
Local Abbreviation orbit_loop := (orbit_loop ecef get_position ecef_to_llh).
Local Abbreviation init_orbit_poly :=
  (init_orbit_poly ecef get_position ecef_to_llh).

Lemma timedelta_minutes_inv (interval d : Z) :
  timedelta_minutes interval = Ret d -> d = interval * 60000000.
Proof.
  unfold timedelta_minutes.
  destruct (_ && _); [|discriminate]. intros [= <-]. reflexivity.
Qed.

Lemma datetime_add_inv (t d t' : Z) :
  datetime_add t d = Ret t' -> t' = t + d /\ 0 <= t' <= datetime_max.
Proof.
  unfold datetime_add.
  destruct (0 <=? t + d) eqn:E1; [|discriminate].
  destruct (t + d <=? datetime_max) eqn:E2; [|discriminate].
  cbn. intros [= <-]. lia.
Qed.

Lemma orbit_step_inv (T1 interval : Z) (p : Polygon) (T1' : Z) :
  orbit_step T1 interval = Ret (p, T1') ->
  T1' = T1 + interval * 60000000
  /\ 0 <= T1' <= datetime_max
  /\ length (exterior p) = 4%nat.
Proof.
  unfold GenericFunctions.orbit_step.
  destruct (get_position T1) as [e1|]; cbn; [|discriminate].
  destruct (ecef_to_llh e1) as [[[lat1 lon1] h1]|]; cbn; [|discriminate].
  destruct (timedelta_minutes interval) as [d|] eqn:Ed; cbn; [|discriminate].
  destruct (datetime_add T1 d) as [st|] eqn:Est; cbn; [|discriminate].
  destruct (get_position st) as [e2|]; cbn; [|discriminate].
  destruct (ecef_to_llh e2) as [[[lat2 lon2] h2]|]; cbn; [|discriminate].
  intros [= <- <-].
  apply timedelta_minutes_inv in Ed. apply datetime_add_inv in Est.
  subst d. cbn. lia.
Qed.

Lemma timedelta_minutes_small (interval : Z) :
  - datetime_max <= interval * 60000000 <= datetime_max ->
  timedelta_minutes interval = Ret (interval * 60000000).
Proof.
  intros H. unfold timedelta_minutes, datetime_max in *.
  assert (H1 : -999999999 <= interval * 60000000 / 86400000000)
    by (apply Z.div_le_lower_bound; lia).
  assert (H2 : interval * 60000000 / 86400000000 <= 999999999)
    by (apply Z.div_le_upper_bound; lia).
  apply Z.leb_le in H1, H2. rewrite H1, H2. reflexivity.
Qed.

Lemma orbit_step_ok (T1 interval : Z) :
  (forall t, exists e llh, get_position t = Ret e /\ ecef_to_llh e = Ret llh) ->
  - datetime_max <= interval * 60000000 <= datetime_max ->
  0 <= T1 + interval * 60000000 <= datetime_max ->
  exists p, orbit_step T1 interval = Ret (p, T1 + interval * 60000000).
Proof.
  intros Hpos Hd Hst. unfold GenericFunctions.orbit_step.
  destruct (Hpos T1) as (e1 & [[lat1 lon1] h1] & -> & E1). cbn. rewrite E1. cbn.
  rewrite timedelta_minutes_small by assumption. cbn.
  unfold datetime_add.
  destruct (0 <=? _) eqn:C1; [|lia].
  destruct (_ <=? datetime_max) eqn:C2; [|lia]. cbn.
  destruct (Hpos (T1 + interval * 60000000))
    as (e2 & [[lat2 lon2] h2] & -> & E2). cbn. rewrite E2. cbn.
  eexists. reflexivity.
Qed.

Lemma map_seq_succ (f : nat -> Z) (k : nat) :
  map f (seq 0 (S k)) = f 0%nat :: map (fun j => f (S j)) (seq 0 k).
Proof.
  cbn [seq map]. f_equal. rewrite <- seq_shift, map_map. reflexivity.
Qed.

(** What a returning run has done: [k] passes, one timestamp and one
    four-cornered polygon appended per pass, [T2] reached after the last. *)
Lemma orbit_loop_returns_inv (fuel : nat) :
  forall (T1 T2 interval : Z) (polys : list Polygon) (days : list Z)
         (days' : list Z) (polys' : list Polygon),
    orbit_loop fuel T1 T2 interval polys days = Some (Ret (days', polys')) ->
    exists (k : nat) (new : list Polygon),
      (k <= fuel)%nat
      /\ T2 = T1 + Z.of_nat k * (interval * 60000000)
      /\ (forall j, (j < k)%nat ->
            T1 + Z.of_nat j * (interval * 60000000) <> T2)
      /\ days' = days ++ map (fun j => T1 + Z.of_nat j * (interval * 60000000))
                            (seq 0 k)
      /\ polys' = polys ++ new
      /\ length new = k
      /\ Forall (fun p => length (exterior p) = 4%nat) new.
Proof.
  induction fuel as [|fuel IH]; intros T1 T2 interval polys days days' polys';
    cbn [GenericFunctions.orbit_loop]; destruct (T1 =? T2) eqn:Eg.
  1,3: intros [= <- <-]; apply Z.eqb_eq in Eg; exists 0%nat, [];
       rewrite !app_nil_r; repeat split; auto; try lia.
  - discriminate.
  - destruct (orbit_step T1 interval) as [[p T1']|] eqn:Es; [|discriminate].
    intros Hr. apply IH in Hr.
    destruct Hr as (k & new & Hk & HT2 & Hne & Hd & Hp & Hlen & Hquad).
    apply orbit_step_inv in Es. destruct Es as (-> & _ & Hp4).
    apply Z.eqb_neq in Eg.
    exists (S k), (p :: new). repeat split.
    + lia.
    + lia.
    + intros [|j] Hj; [lia|]. specialize (Hne j ltac:(lia)). lia.
    + rewrite Hd, <- app_assoc, map_seq_succ. cbn [app]. do 2 f_equal.
      * lia.
      * apply map_ext. intros j. lia.
    + rewrite Hp, <- app_assoc. reflexivity.
    + cbn. lia.
    + constructor; assumption.
Qed.

(** A span of [k] steps is walked in [k] passes. *)
Lemma orbit_loop_returns (k : nat) :
  forall (T1 T2 interval : Z) (polys : list Polygon) (days : list Z),
    (forall t, exists e llh, get_position t = Ret e /\ ecef_to_llh e = Ret llh) ->
    0 <= T1 <= datetime_max -> 0 <= T2 <= datetime_max ->
    T2 = T1 + Z.of_nat k * (interval * 60000000) ->
    exists res, orbit_loop k T1 T2 interval polys days = Some (Ret res).
Proof.
  induction k as [|k IH]; intros T1 T2 interval polys days Hpos H1 H2 HT2;
    cbn [GenericFunctions.orbit_loop]; destruct (T1 =? T2) eqn:Eg; eauto.
  - apply Z.eqb_neq in Eg. lia.
  - apply Z.eqb_neq in Eg.
    set (d := interval * 60000000) in *.
    assert (Hd : - datetime_max <= d <= datetime_max) by nia.
    assert (Hst : 0 <= T1 + d <= datetime_max) by nia.
    destruct (orbit_step_ok T1 interval Hpos Hd Hst) as (p & ->).
    apply IH; auto. lia.
Qed.

Lemma timedelta_minutes_cases (interval : Z) :
  timedelta_minutes interval = Ret (interval * 60000000)
  \/ timedelta_minutes interval = Raise OverflowError.
Proof. unfold timedelta_minutes. destruct (_ && _); auto. Qed.

Lemma datetime_add_cases (t d : Z) :
  (datetime_add t d = Ret (t + d) /\ 0 <= t + d <= datetime_max)
  \/ datetime_add t d = Raise OverflowError.
Proof.
  unfold datetime_add.
  destruct (0 <=? t + d) eqn:E1; [|auto].
  destruct (t + d <=? datetime_max) eqn:E2; [|auto].
  left. split; [reflexivity|lia].
Qed.

(** A walk that steps over [T2] leaves the range of [datetime]: the run ends
    in [OverflowError], it does not return. *)
Lemma orbit_loop_overflows (n : nat) :
  forall (T1 T2 interval : Z) (polys : list Polygon) (days : list Z),
    (forall t, exists e llh, get_position t = Ret e /\ ecef_to_llh e = Ret llh) ->
    interval <> 0 ->
    0 <= T1 <= datetime_max ->
    (forall k : nat, T2 <> T1 + Z.of_nat k * (interval * 60000000)) ->
    (Z.to_nat (if (0 <? interval)%Z then (datetime_max - T1)%Z else T1) < n)%nat ->
    exists fuel,
      orbit_loop fuel T1 T2 interval polys days = Some (Raise OverflowError).
Proof.
  induction n as [|n IH]; intros T1 T2 interval polys days Hpos Hi H1 Hne Hn;
    [lia|].
  assert (Eg : (T1 =? T2) = false).
  { apply Z.eqb_neq. intros E. apply (Hne 0%nat). lia. }
  assert (Hraise : orbit_step T1 interval = Raise OverflowError ->
            exists fuel, orbit_loop fuel T1 T2 interval polys days
                         = Some (Raise OverflowError)).
  { intros Es. exists 1%nat. cbn [GenericFunctions.orbit_loop].
    rewrite Eg, Es. reflexivity. }
  destruct (Hpos T1) as (e1 & [[lat1 lon1] h1] & Ep & El).
  destruct (timedelta_minutes_cases interval) as [Ed|Ed].
  2:{ apply Hraise. unfold GenericFunctions.orbit_step.
      rewrite Ep. cbn. rewrite El. cbn. rewrite Ed. reflexivity. }
  destruct (datetime_add_cases T1 (interval * 60000000)) as [[Ea Hr]|Ea].
  2:{ apply Hraise. unfold GenericFunctions.orbit_step.
      rewrite Ep. cbn. rewrite El. cbn. rewrite Ed. cbn. rewrite Ea.
      reflexivity. }
  destruct (Hpos (T1 + interval * 60000000))
    as (e2 & [[lat2 lon2] h2] & Ep2 & El2).
  assert (Es : exists p, orbit_step T1 interval
                         = Ret (p, T1 + interval * 60000000)).
  { unfold GenericFunctions.orbit_step.
    rewrite Ep. cbn. rewrite El. cbn. rewrite Ed. cbn. rewrite Ea. cbn.
    rewrite Ep2. cbn. rewrite El2. cbn. eexists. reflexivity. }
  destruct Es as (p & Es).
  destruct (IH (T1 + interval * 60000000) T2 interval
              (polys ++ [p]) (days ++ [T1]) Hpos Hi Hr) as (fuel & Hf).
  - intros k E. apply (Hne (S k)). lia.
  - destruct (0 <? interval) eqn:Ei; [apply Z.ltb_lt in Ei|apply Z.ltb_ge in Ei];
      lia.
  - exists (S fuel). cbn [GenericFunctions.orbit_loop]. rewrite Eg, Es. exact Hf.
Qed.

Lemma steps_increasing (T1 d : Z) (k s : nat) :
  0 < d ->
  StronglySorted Z.lt (map (fun j => T1 + Z.of_nat j * d) (seq s k)).
Proof.
  intros Hd. revert s. induction k as [|k IH]; intros s; cbn [seq map];
    constructor; [apply IH|].
  rewrite List.Forall_forall. intros t Ht.
  apply in_map_iff in Ht. destruct Ht as (j & <- & Hj).
  apply in_seq in Hj. nia.
Qed.

(** C10, amended: [init_orbit_poly] returns exactly when [T2] is [T1] plus a
    natural number [k] of intervals (the guard is [T1 != T2]).  It then
    returns [k] timestamps and [k] polygons of four corners each; the
    timestamps are [T1], [T1 + interval], ... and never [T2]; for a positive
    interval they increase and lie in the range from [T1] up to, not
    including, [T2]. *)
Theorem init_orbit_poly_returns_iff (T1 T2 interval : Z) :
  (forall fuel day_list polygon_list,
      init_orbit_poly fuel T1 T2 interval = Some (Ret (day_list, polygon_list)) ->
      T2 - T1 = Z.of_nat (length day_list) * (interval * 60000000)
      /\ length polygon_list = length day_list
      /\ Forall (fun p => length (exterior p) = 4%nat) polygon_list
      /\ day_list = map (fun j => T1 + Z.of_nat j * (interval * 60000000))
                        (seq 0 (length day_list))
      /\ ~ In T2 day_list
      /\ (0 < interval ->
          StronglySorted Z.lt day_list
          /\ Forall (fun t => T1 <= t < T2) day_list))
  /\ ((forall t, exists e llh, get_position t = Ret e /\ ecef_to_llh e = Ret llh) ->
      0 <= T1 <= datetime_max -> 0 <= T2 <= datetime_max ->
      ((exists fuel res, init_orbit_poly fuel T1 T2 interval = Some (Ret res))
       <-> exists k : nat, T2 - T1 = Z.of_nat k * (interval * 60000000))).
Proof.
  split.
  - intros fuel day_list polygon_list Hr.
    apply orbit_loop_returns_inv in Hr.
    destruct Hr as (k & new & _ & HT2 & Hne & Hd & Hp & Hlen & Hquad).
    cbn [app] in Hd, Hp. subst polygon_list.
    assert (Hk : length day_list = k)
      by (rewrite Hd, length_map, length_seq; reflexivity).
    rewrite Hk.
    split; [lia|]. split; [exact Hlen|]. split; [exact Hquad|].
    split; [exact Hd|]. split.
    + intros Hin. rewrite Hd in Hin. apply in_map_iff in Hin.
      destruct Hin as (j & Hj & Hjk). apply in_seq in Hjk.
      apply (Hne j); lia.
    + intros Hi. split.
      * rewrite Hd. apply steps_increasing. lia.
      * rewrite Hd, List.Forall_forall. intros t Ht.
        apply in_map_iff in Ht. destruct Ht as (j & <- & Hj).
        apply in_seq in Hj. nia.
  - intros Hpos H1 H2. split.
    + intros (fuel & [days polys] & Hr).
      apply orbit_loop_returns_inv in Hr.
      destruct Hr as (k & _ & _ & HT2 & _). exists k. lia.
    + intros (k & Hk). exists k.
      apply orbit_loop_returns; auto. lia.
Qed.

End OrbitFacts.

(** ** fit_dist *)

Section FitDistFacts.

Import Distributions.

Variable scipy_stats : string -> option nat.
Variable dist_fit : string -> list float -> value -> result (list value).
Variable json_loads : string -> result value.

Local Abbreviation fit_dist := (fit_dist scipy_stats dist_fit json_loads).
Local Abbreviation fit_samples := (fit_samples dist_fit).
Local Abbreviation normalize_shape := (normalize_shape json_loads).
Local Abbreviation freeze := (freeze scipy_stats).

(** The two modes of [fit_dist], for a family that scipy knows. *)
Lemma fit_dist_empirical (samples : list float) (name : string)
    (loc shape scale : value) :
  is_Some (scipy_stats name) ->
  fit_dist (Some samples) (VStr name) loc shape scale
  = ((fit_samples name samples loc).1,
     param ← (fit_samples name samples loc).2;
     '(l, sc, sh) ← unpack_param param;
     sh' ← normalize_shape sh;
     freeze name sh' l sc).
Proof.
  intros [n Hn]. unfold Distributions.fit_dist, getattr_stats. rewrite Hn.
  destruct (fit_samples name samples loc) as [evs [param|e]]; reflexivity.
Qed.

Lemma fit_dist_parametric (name : string) (loc shape scale : value) :
  is_Some (scipy_stats name) ->
  fit_dist None (VStr name) loc shape scale
  = ([], sh' ← normalize_shape shape; freeze name sh' loc scale).
Proof.
  intros [n Hn]. unfold Distributions.fit_dist, getattr_stats. rewrite Hn.
  reflexivity.
Qed.

Lemma fit_dist_unknown (samples : option (list float)) (dist_type : value)
    (loc shape scale d : value) :
  (fit_dist samples dist_type loc shape scale).2 = Ret d ->
  exists name, dist_type = VStr name /\ is_Some (scipy_stats name).
Proof.
  unfold Distributions.fit_dist, getattr_stats.
  destruct dist_type as [| | | |name| | | |]; try discriminate.
  destruct (scipy_stats name) eqn:E; [|discriminate]. eauto.
Qed.

Lemma normalize_shape_list (shape r : value) :
  normalize_shape shape = Ret r -> exists items, r = VList items.
Proof.
  unfold Distributions.normalize_shape.
  assert (H : forall v : value, exists items,
             match v with VList _ => v | _ => VList [v] end = VList items)
    by (intros []; eauto).
  destruct shape as [| | | |s| | | |]; cbn; unfold mret, result_ret;
    try (intros [= <-]; eauto).
  destruct (json_loads s) as [v|]; cbn; [|discriminate].
  unfold mret, result_ret. intros [= <-]. apply H.
Qed.

(** C3: when the first fit raises, [fit_dist] drops every sample that is not
    greater than zero (so every sample [<= 0]), keeps the others, and calls
    the fit a second and last time, on what is left; an error of that second
    call is the error [fit_dist] raises, and a success is what the
    distribution is built from. *)
Theorem fit_dist_retries_once (samples : list float) (name : string)
    (loc shape scale : value) (e1 : exn) :
  is_Some (scipy_stats name) ->
  dist_fit name samples loc = Raise e1 ->
  let samples' := List.filter (fun s => PrimFloat.ltb 0%float s) samples in
  (forall s, In s samples' <-> In s samples /\ PrimFloat.ltb 0%float s = true)
  /\ (forall s, In s samples -> PrimFloat.leb s 0%float = true ->
                ~ In s samples')
  /\ (fit_dist (Some samples) (VStr name) loc shape scale).1
     = [EFit name samples loc; EFit name samples' loc]
  /\ (forall e2, dist_fit name samples' loc = Raise e2 ->
        (fit_dist (Some samples) (VStr name) loc shape scale).2 = Raise e2)
  /\ (forall param, dist_fit name samples' loc = Ret param ->
        (fit_dist (Some samples) (VStr name) loc shape scale).2
        = ('(l, sc, sh) ← unpack_param param;
           sh' ← normalize_shape sh;
           freeze name sh' l sc)).
Proof.
  intros Hfam Hfail samples'.
  assert (Hin : forall s, In s samples'
                          <-> In s samples /\ PrimFloat.ltb 0%float s = true).
  { intros s. subst samples'. apply filter_In. }
  rewrite (fit_dist_empirical _ _ _ _ _ Hfam).
  unfold Distributions.fit_samples. rewrite Hfail. fold samples'.
  cbn [fst snd].
  split; [exact Hin|]. split.
  { intros s _ Hle Hs. apply Hin in Hs. destruct Hs as [_ Hs].
    apply float_lt_not_ge in Hs. congruence. }
  split; [reflexivity|]. split.
  - intros e2 ->. reflexivity.
  - intros param ->. reflexivity.
Qed.

(** C5, amended: every call of the fit is made with [floc] set to the [loc]
    that [fit_dist] was given, and the distribution that [fit_dist] returns
    has for location the one-element tuple of the location entry of the
    fitted parameters; that entry is the given [loc] whenever the fit keeps
    the location it is handed. *)
Theorem fit_dist_fixed_location (samples : list float) (name : string)
    (loc shape scale : value) :
  Forall (fun ev => exists s, ev = EFit name s loc)
         (fit_dist (Some samples) (VStr name) loc shape scale).1
  /\ forall d,
      (fit_dist (Some samples) (VStr name) loc shape scale).2 = Ret d ->
      exists param l sc args,
        (fit_samples name samples loc).2 = Ret param
        /\ index_from_end param 2 = Ret l
        /\ index_from_end param 1 = Ret sc
        /\ d = VFrozen name args (VTuple [l]) sc
        /\ ((forall s p, dist_fit name s loc = Ret p ->
                         index_from_end p 2 = Ret loc) ->
            d = VFrozen name args (VTuple [loc]) sc).
Proof.
  split.
  - unfold Distributions.fit_dist, getattr_stats.
    destruct (scipy_stats name); [|constructor].
    unfold Distributions.fit_samples.
    destruct (dist_fit name samples loc); cbn [fst snd];
      repeat constructor; eauto.
  - intros d Hd.
    destruct (fit_dist_unknown _ _ _ _ _ _ Hd) as (name' & [= <-] & Hfam).
    rewrite (fit_dist_empirical _ _ _ _ _ Hfam) in Hd. cbn [snd] in Hd.
    destruct (fit_samples name samples loc) as [evs [param|e]] eqn:Ef;
      [|discriminate].
    cbn in Hd. unfold unpack_param in Hd.
    destruct (index_from_end param 2) as [l|] eqn:El; [|discriminate].
    destruct (index_from_end param 1) as [sc|] eqn:Esc; [|discriminate].
    cbn in Hd.
    set (sh := VList [VTuple (firstn (length param - 2) param)]) in Hd.
    unfold Distributions.freeze in Hd. subst sh.
    destruct (scipy_stats name) as [n|]; [|discriminate].
    destruct n as [|[|n]]; try discriminate.
    unfold mret, result_ret in Hd. injection Hd as <-.
    exists param, l, sc, [VTuple (firstn (length param - 2) param)].
    repeat split; auto.
    intros Hkeep.
    assert (Hp : exists s, dist_fit name s loc = Ret param).
    { unfold Distributions.fit_samples in Ef.
      destruct (dist_fit name samples loc) eqn:E1; injection Ef as _ E2; eauto.
      subst. eauto. }
    destruct Hp as (s & Hs). rewrite (Hkeep _ _ Hs) in El.
    injection El as <-. reflexivity.
Qed.

(** In parametric mode the distribution is built on the normalized shape,
    with the location and the scale it was given. *)
Lemma fit_dist_parametric_frozen (name : string) (loc shape scale d : value) :
  (fit_dist None (VStr name) loc shape scale).2 = Ret d ->
  exists items,
    normalize_shape shape = Ret (VList items)
    /\ d = VFrozen name items loc scale.
Proof.
  intros Hd.
  destruct (fit_dist_unknown _ _ _ _ _ _ Hd) as (name' & [= <-] & Hfam).
  rewrite (fit_dist_parametric _ _ _ _ Hfam) in Hd. cbn [snd] in Hd.
  destruct (normalize_shape shape) as [r|] eqn:En; [|discriminate].
  destruct (normalize_shape_list _ _ En) as (items & ->).
  exists items. split; [reflexivity|].
  cbn in Hd. destruct (scipy_stats name) as [n|]; [|discriminate].
  destruct (_ =? n)%nat; [|discriminate].
  unfold mret, result_ret in Hd. injection Hd as <-. reflexivity.
Qed.

(** C6: a shape written as the JSON text of a list is normalized to the list
    the text denotes, the same as when that list is passed itself, and
    [fit_dist] then builds the same distribution; a number is normalized to
    the list holding it; whatever the shape, its normal form is a list, and
    the distribution is built on the items of that list. *)
Theorem fit_dist_shape_normalized :
  (forall s items,
      json_loads s = Ret (VList items) ->
      normalize_shape (VStr s) = Ret (VList items)
      /\ normalize_shape (VList items) = Ret (VList items)
      /\ forall dist_type loc scale,
          fit_dist None dist_type loc (VStr s) scale
          = fit_dist None dist_type loc (VList items) scale)
  /\ (forall z, normalize_shape (VInt z) = Ret (VList [VInt z]))
  /\ (forall x, normalize_shape (VFloat x) = Ret (VList [VFloat x]))
  /\ (forall shape r,
        normalize_shape shape = Ret r -> exists items, r = VList items)
  /\ (forall name loc shape scale d,
        (fit_dist None (VStr name) loc shape scale).2 = Ret d ->
        exists items,
          normalize_shape shape = Ret (VList items)
          /\ d = VFrozen name items loc scale).
Proof.
  split; [|split; [reflexivity|split; [reflexivity|split]]].
  - intros s items Hs.
    assert (H1 : normalize_shape (VStr s) = Ret (VList items)).
    { unfold Distributions.normalize_shape. rewrite Hs. reflexivity. }
    split; [exact H1|]. split; [reflexivity|].
    intros dist_type loc scale. unfold Distributions.fit_dist.
    destruct (getattr_stats scipy_stats dist_type); [|reflexivity].
    cbn [mbind result_bind mret result_ret]. rewrite H1. reflexivity.
  - exact normalize_shape_list.
  - exact fit_dist_parametric_frozen.
Qed.

End FitDistFacts.

(** ** unpackage_dist *)

Section UnpackageDistFacts.

Import Distributions.

Variable scipy_stats : string -> option nat.
Variable dist_fit : string -> list float -> value -> result (list value).
Variable json_loads : string -> result value.
Variable np_exp : value -> result value.
Variable read_first_column : string -> string -> result (list float).

Local Abbreviation fit_dist := (fit_dist scipy_stats dist_fit json_loads).
Local Abbreviation unpackage_subtype :=
  (unpackage_subtype scipy_stats dist_fit json_loads np_exp read_first_column).
Local Abbreviation unpackage_subtypes :=
  (unpackage_subtypes scipy_stats dist_fit json_loads np_exp read_first_column).
Local Abbreviation unpackage_dist :=
  (unpackage_dist scipy_stats dist_fit json_loads np_exp read_first_column).

(** Equations of the loader monad. *)
Lemma bind_find {A : Type} (key : string) (k : option value -> loader A)
    (d : gmap string value) :
  (find key ≫= k) d = k (d !! key) d.
Proof.
  unfold mbind, loader_bind, find. destruct (k (d !! key) d) as [[? ?] ?].
  reflexivity.
Qed.

Lemma bind_getitem {A : Type} (key : string) (k : value -> loader A)
    (d : gmap string value) :
  (getitem key ≫= k) d
  = match d !! key with
    | Some v => k v d
    | None => (d, [], Raise (KeyError key))
    end.
Proof.
  unfold mbind, loader_bind, getitem. destruct (d !! key) as [v|]; [|reflexivity].
  destruct (k v d) as [[? ?] ?]. reflexivity.
Qed.

Lemma bind_setitem {A : Type} (key : string) (v : value) (k : unit -> loader A)
    (d : gmap string value) :
  (setitem key v ≫= k) d = k tt (<[key := v]> d).
Proof.
  unfold mbind, loader_bind, setitem.
  destruct (k tt (<[key := v]> d)) as [[? ?] ?]. reflexivity.
Qed.

Lemma bind_mret {A B : Type} (a : A) (k : A -> loader B) (d : gmap string value) :
  (mret a ≫= k) d = k a d.
Proof.
  unfold mbind, loader_bind, mret, loader_ret.
  destruct (k a d) as [[? ?] ?]. reflexivity.
Qed.

Lemma bind_call {A B : Type} (c : list event * result A) (k : A -> loader B)
    (d : gmap string value) :
  (call c ≫= k) d
  = match c.2 with
    | Ret a => ((k a d).1.1, c.1 ++ (k a d).1.2, (k a d).2)
    | Raise e => (d, c.1, Raise e)
    end.
Proof.
  unfold mbind, loader_bind, call. destruct c as [evs [a|e]]; cbn [fst snd];
    [|reflexivity].
  destruct (k a d) as [[? ?] ?]. reflexivity.
Qed.

Lemma bind_assoc {A B C : Type} (m : loader A) (f : A -> loader B)
    (g : B -> loader C) (d : gmap string value) :
  ((m ≫= f) ≫= g) d = (m ≫= (fun a => f a ≫= g)) d.
Proof.
  unfold mbind, loader_bind.
  destruct (m d) as [[d1 e1] [a|e]]; [|reflexivity].
  destruct (f a d1) as [[d2 e2] [b|e]]; [|reflexivity].
  destruct (g b d2) as [[d3 e3] r]. rewrite app_assoc. reflexivity.
Qed.

Lemma fit_dist_parametric_events (dist_type loc shape scale : value) :
  (fit_dist None dist_type loc shape scale).1 = [].
Proof.
  unfold Distributions.fit_dist.
  destruct (getattr_stats scipy_stats dist_type); reflexivity.
Qed.

Lemma bind_ret_inv {A B : Type} (m : loader A) (k : A -> loader B)
    (d d' : gmap string value) (evs : list event) (b : B) :
  (m ≫= k) d = (d', evs, Ret b) ->
  exists a d1 e1 e2,
    m d = (d1, e1, Ret a) /\ k a d1 = (d', e2, Ret b) /\ evs = e1 ++ e2.
Proof.
  unfold mbind, loader_bind.
  destruct (m d) as [[d1 e1] [a|e]]; [|discriminate].
  destruct (k a d1) as [[d2 e2] r] eqn:Ek.
  intros [= <- <- ->]. exists a, d1, e1, e2. auto.
Qed.

Lemma find_inv (key : string) (d d1 : gmap string value) (e1 : list event)
    (o : option value) :
  find key d = (d1, e1, Ret o) -> o = d !! key /\ d1 = d /\ e1 = [].
Proof. unfold find. intros [= <- <- <-]. auto. Qed.

Lemma getitem_inv (key : string) (d d1 : gmap string value) (e1 : list event)
    (v : value) :
  getitem key d = (d1, e1, Ret v) -> d !! key = Some v /\ d1 = d /\ e1 = [].
Proof.
  unfold getitem. destruct (d !! key); [|discriminate].
  intros [= <- <- <-]. auto.
Qed.

Lemma setitem_inv (key : string) (v : value) (d d1 : gmap string value)
    (e1 : list event) (u : unit) :
  setitem key v d = (d1, e1, Ret u) -> d1 = <[key := v]> d /\ e1 = [].
Proof. unfold setitem. intros [= <- <-]. auto. Qed.

Lemma call_inv {A : Type} (c : list event * result A) (d d1 : gmap string value)
    (e1 : list event) (a : A) :
  call c d = (d1, e1, Ret a) -> c.2 = Ret a /\ d1 = d /\ e1 = c.1.
Proof. unfold call. intros [= <- <- ->]. auto. Qed.

Lemma mret_inv {A : Type} (a a' : A) (d d1 : gmap string value)
    (e1 : list event) :
  (mret a : loader A) d = (d1, e1, Ret a') -> a' = a /\ d1 = d /\ e1 = [].
Proof. unfold mret, loader_ret. intros [= <- <- <-]. auto. Qed.

(** Decompose a returning run of the loader into its steps. *)
Ltac loader_inv :=
  repeat match goal with
    | H : (_ ≫= _) _ = (_, _, Ret _) |- _ =>
        apply bind_ret_inv in H;
        destruct H as (? & ? & ? & ? & ? & H & ?)
    | H : find _ _ = (_, _, Ret _) |- _ =>
        apply find_inv in H; destruct H as (? & ? & ?)
    | H : getitem _ _ = (_, _, Ret _) |- _ =>
        apply getitem_inv in H; destruct H as (? & ? & ?)
    | H : setitem _ _ _ = (_, _, Ret _) |- _ =>
        apply setitem_inv in H; destruct H as (? & ?)
    | H : call _ _ = (_, _, Ret _) |- _ =>
        apply call_inv in H; destruct H as (? & ? & ?)
    | H : @mret _ _ _ _ _ = (_, _, Ret _) |- _ =>
        apply mret_inv in H; destruct H as (? & ? & ?)
    | u : unit |- _ => destruct u
    end; subst.

Lemma exponentiate_lognorm_scale_inv (d d1 : gmap string value)
    (evs : list event) :
  exponentiate_lognorm_scale np_exp d = (d1, evs, Ret tt) ->
  exists dist_type,
    d !! "dist_type" = Some dist_type
    /\ if eq_str dist_type "lognorm"
       then exists configured e,
           d !! "dist_scale" = Some configured
           /\ np_exp configured = Ret e
           /\ evs = [EExp configured]
           /\ d1 = <["dist_scale" := e]> d
       else evs = [] /\ d1 = d.
Proof.
  unfold exponentiate_lognorm_scale. intros H. loader_inv.
  match goal with Hd : d !! "dist_type" = Some ?v |- _ => exists v end.
  split; [assumption|].
  destruct (eq_str _ "lognorm"); loader_inv; eauto 10.
Qed.

Lemma promote_sigma_eq (d : gmap string value) :
  promote_sigma d
  = (match d !! "dist_sigma" with
     | Some sigma => <["dist_shape" := VList [sigma]]> d
     | None => d
     end, [], Ret tt).
Proof.
  unfold promote_sigma. rewrite bind_find.
  destruct (d !! "dist_sigma"); reflexivity.
Qed.

Lemma attach_dist_inv (d d' : gmap string value) (evs : list event) :
  attach_dist scipy_stats dist_fit json_loads d = (d', evs, Ret tt) ->
  exists dist_type shape scale frozen,
    d !! "dist_type" = Some dist_type
    /\ d !! "dist_shape" = Some shape
    /\ d !! "dist_scale" = Some scale
    /\ (fit_dist None dist_type (VInt 0) shape scale).2 = Ret frozen
    /\ evs = []
    /\ d' = <["leak_rate_dist" := frozen]> d.
Proof.
  unfold attach_dist. intros H. loader_inv.
  do 4 eexists. repeat split; try eassumption.
  rewrite fit_dist_parametric_events. reflexivity.
Qed.

Lemma attach_samples_inv (wd : string) (d d' : gmap string value)
    (evs : list event) :
  attach_samples read_first_column wd d = (d', evs, Ret tt) ->
  exists file rates,
    d !! "leak_rates_file" = Some (VStr file)
    /\ read_first_column wd file = Ret rates
    /\ evs = [EReadCsv wd file]
    /\ d' = <["empirical_leak_rates" := VArray rates]> d.
Proof.
  unfold attach_samples. intros H. loader_inv.
  match goal with Hd : d !! "leak_rates_file" = Some ?v |- _ =>
    destruct v; try discriminate end.
  loader_inv. eauto 10.
Qed.

(** What a returning run leaves in a parametric subtype. *)
Lemma unpackage_subtype_dist_inv (wd : string) (d d' : gmap string value)
    (evs : list event) :
  d !! "leak_rate_source" = None
  \/ d !! "leak_rate_source" = Some (VStr "dist") ->
  unpackage_subtype wd d = (d', evs, Ret tt) ->
  exists dist_type scale shape frozen,
    d !! "dist_type" = Some dist_type
    /\ (if eq_str dist_type "lognorm"
        then exists configured,
            d !! "dist_scale" = Some configured
            /\ np_exp configured = Ret scale
            /\ evs = [EExp configured]
        else d !! "dist_scale" = Some scale /\ evs = [])
    /\ (fit_dist None dist_type (VInt 0) shape scale).2 = Ret frozen
    /\ d' !! "leak_rate_dist" = Some frozen
    /\ d' !! "dist_scale" = Some scale
    /\ d' !! "empirical_leak_rates" = d !! "empirical_leak_rates".
Proof.
  intros Hsrc. unfold Distributions.unpackage_subtype.
  rewrite bind_find.
  assert (Hmode : match d !! "leak_rate_source" with
                  | Some v => eq_str v "dist"
                  | None => true
                  end = true) by (destruct Hsrc as [-> | ->]; reflexivity).
  rewrite Hmode. clear Hmode Hsrc. intros H. loader_inv.
  match goal with H : exponentiate_lognorm_scale _ _ = _ |- _ =>
    apply exponentiate_lognorm_scale_inv in H;
    destruct H as (dist_type & Hdt & Hscale) end.
  match goal with H : promote_sigma _ = _ |- _ =>
    rewrite promote_sigma_eq in H; injection H as <- <- end.
  match goal with H : attach_dist _ _ _ _ = _ |- _ =>
    apply attach_dist_inv in H;
    destruct H as (dt & shape & scale & frozen & Hdt' & _ & Hsc & Hfit & -> & ->)
  end.
  exists dist_type, scale, shape, frozen.
  assert (Edt : dt = dist_type).
  { destruct (eq_str dist_type "lognorm").
    - destruct Hscale as (c & e & _ & _ & _ & ->).
      destruct (_ !! "dist_sigma"); simplify_map_eq; reflexivity.
    - destruct Hscale as (_ & ->).
      destruct (_ !! "dist_sigma"); simplify_map_eq; reflexivity. }
  subst dt. split; [assumption|].
  rewrite lookup_insert_eq, !lookup_insert_ne by discriminate.
  destruct (eq_str dist_type "lognorm").
  - destruct Hscale as (c & e & Hc & He & -> & ->).
    assert (e = scale)
      by (destruct (_ !! "dist_sigma"); simplify_map_eq; reflexivity).
    subst e. split; [eauto|]. split; [assumption|]. split; [reflexivity|].
    split; [assumption|].
    destruct (_ !! "dist_sigma"); simplify_map_eq; reflexivity.
  - destruct Hscale as (-> & ->).
    split; [split; [|reflexivity]|].
    { destruct (_ !! "dist_sigma"); simplify_map_eq; reflexivity. }
    split; [assumption|]. split; [reflexivity|]. split; [assumption|].
    destruct (_ !! "dist_sigma"); simplify_map_eq; reflexivity.
Qed.

(** What a returning run leaves in a subtype of the other kinds. *)
Lemma unpackage_subtype_other_inv (wd : string) (d d' : gmap string value)
    (evs : list event) (source : value) :
  d !! "leak_rate_source" = Some source ->
  eq_str source "dist" = false ->
  unpackage_subtype wd d = (d', evs, Ret tt) ->
  if eq_str source "sample"
  then exists file rates,
      d !! "leak_rates_file" = Some (VStr file)
      /\ read_first_column wd file = Ret rates
      /\ evs = [EReadCsv wd file]
      /\ d' = <["empirical_leak_rates" := VArray rates]> d
  else d' = d /\ evs = [].
Proof.
  intros Hsrc Hnd. unfold Distributions.unpackage_subtype.
  rewrite bind_find, Hsrc, Hnd, bind_getitem, Hsrc.
  destruct (eq_str source "sample").
  - apply attach_samples_inv.
  - intros H. loader_inv. auto.
Qed.

(** A returning run of the loader has run the body on every subtype, in
    place. *)
Lemma unpackage_subtypes_lookup (wd : string)
    (sts : list (string * gmap string value)) :
  forall (sts' : list (string * gmap string value)) (evs : list event)
         (n : nat) (st_idx : string) (subtype : gmap string value),
    unpackage_subtypes wd sts = (sts', evs, Ret tt) ->
    sts !! n = Some (st_idx, subtype) ->
    exists subtype' evs_n,
      sts' !! n = Some (st_idx, subtype')
      /\ unpackage_subtype wd subtype = (subtype', evs_n, Ret tt).
Proof.
  induction sts as [|[i st] sts IH]; intros sts' evs n st_idx subtype Hrun Hn;
    [discriminate|].
  cbn [Distributions.unpackage_subtypes] in Hrun.
  destruct (unpackage_subtype wd st) as [[st' e1] [[]|e]] eqn:Est;
    [|discriminate].
  destruct (unpackage_subtypes wd sts) as [[rest' e2] r] eqn:Erest.
  injection Hrun as <- <- ->.
  destruct n as [|n]; cbn in Hn |- *.
  - injection Hn as -> ->. eauto.
  - eapply IH; eauto.
Qed.

(** C4: after a run of the loader that returns, a parametric subtype whose
    [dist_type] is "lognorm" holds a distribution whose scale is [np.exp] of
    the [dist_scale] that was configured; [np.exp] was called once for that
    subtype, on the configured value, and its result is also what
    [dist_scale] now holds. *)
Theorem unpackage_dist_lognorm_scale (prog prog' : program) (wd : string)
    (evs : list event) (n : nat) (st_idx : string)
    (subtype : gmap string value) (configured : value) :
  unpackage_dist prog wd = (prog', evs, Ret tt) ->
  subtypes prog !! n = Some (st_idx, subtype) ->
  subtype !! "leak_rate_source" = None
  \/ subtype !! "leak_rate_source" = Some (VStr "dist") ->
  subtype !! "dist_type" = Some (VStr "lognorm") ->
  subtype !! "dist_scale" = Some configured ->
  exists subtype' evs_n e args,
    subtypes prog' !! n = Some (st_idx, subtype')
    /\ unpackage_subtype wd subtype = (subtype', evs_n, Ret tt)
    /\ np_exp configured = Ret e
    /\ subtype' !! "leak_rate_dist"
       = Some (VFrozen "lognorm" args (VInt 0) e)
    /\ subtype' !! "dist_scale" = Some e
    /\ exp_calls evs_n = [EExp configured].
Proof.
  intros Hrun Hn Hsrc Hdt Hsc.
  unfold Distributions.unpackage_dist in Hrun.
  destruct (unpackage_subtypes wd (subtypes prog)) as [[sts' evs'] r] eqn:Er.
  injection Hrun as <- <- ->.
  destruct (unpackage_subtypes_lookup _ _ _ _ _ _ _ Er Hn)
    as (subtype' & evs_n & Hn' & Hst).
  destruct (unpackage_subtype_dist_inv _ _ _ _ Hsrc Hst)
    as (dt & scale & shape & frozen & Hdt' & Hscale & Hfit & Hd & Hs & _).
  rewrite Hdt in Hdt'. injection Hdt' as <-.
  cbn [eq_str String.eqb Ascii.eqb Bool.eqb] in Hscale.
  destruct Hscale as (c & Hc & He & ->).
  rewrite Hsc in Hc. injection Hc as <-.
  destruct (fit_dist_parametric_frozen _ _ _ _ _ _ _ _ Hfit) as (args & _ & ->).
  exists subtype', [EExp configured], scale, args.
  repeat split; auto.
Qed.

(** C7, amended: after a run of the loader that returns, a subtype that had
    neither field before has [leak_rate_dist] and not [empirical_leak_rates]
    when its [leak_rate_source] is absent or "dist", has
    [empirical_leak_rates] and not [leak_rate_dist] when it is "sample", and
    is left as it was, with neither, when it is anything else. *)
Theorem unpackage_dist_one_of (prog prog' : program) (wd : string)
    (evs : list event) (n : nat) (st_idx : string)
    (subtype : gmap string value) :
  unpackage_dist prog wd = (prog', evs, Ret tt) ->
  subtypes prog !! n = Some (st_idx, subtype) ->
  subtype !! "leak_rate_dist" = None ->
  subtype !! "empirical_leak_rates" = None ->
  exists subtype',
    subtypes prog' !! n = Some (st_idx, subtype')
    /\ (subtype !! "leak_rate_source" = None
        \/ subtype !! "leak_rate_source" = Some (VStr "dist") ->
        is_Some (subtype' !! "leak_rate_dist")
        /\ subtype' !! "empirical_leak_rates" = None)
    /\ (subtype !! "leak_rate_source" = Some (VStr "sample") ->
        is_Some (subtype' !! "empirical_leak_rates")
        /\ subtype' !! "leak_rate_dist" = None)
    /\ (forall source,
          subtype !! "leak_rate_source" = Some source ->
          eq_str source "dist" = false ->
          eq_str source "sample" = false ->
          subtype' = subtype).
Proof.
  intros Hrun Hn Hfd Hfe.
  unfold Distributions.unpackage_dist in Hrun.
  destruct (unpackage_subtypes wd (subtypes prog)) as [[sts' evs'] r] eqn:Er.
  injection Hrun as <- <- ->.
  destruct (unpackage_subtypes_lookup _ _ _ _ _ _ _ Er Hn)
    as (subtype' & evs_n & Hn' & Hst).
  exists subtype'. split; [exact Hn'|]. split; [|split].
  - intros Hsrc.
    destruct (unpackage_subtype_dist_inv _ _ _ _ Hsrc Hst)
      as (dt & scale & shape & frozen & _ & _ & _ & Hd & _ & He).
    rewrite Hd, He. split; [eauto|assumption].
  - intros Hsrc.
    pose proof (unpackage_subtype_other_inv _ _ _ _ _ Hsrc eq_refl Hst) as H.
    cbn in H. destruct H as (file & rates & _ & _ & _ & ->).
    rewrite lookup_insert_eq, lookup_insert_ne by discriminate.
    split; [eauto|assumption].
  - intros source Hsrc Hnd Hns.
    pose proof (unpackage_subtype_other_inv _ _ _ _ _ Hsrc Hnd Hst) as H.
    rewrite Hns in H. apply H.
Qed.

End UnpackageDistFacts.

(** ** Worked examples *)

Section WorkedExamples.

Import Distributions GenericFunctions.

(** C1 as stated fails for a bound of zero: the bound is supplied, the draw
    1.5 is not below it, and 1.5 is returned. *)
Lemma leak_rvs_zero_bound_returns_above :
  (leak_rvs Examples.gas_convert [1.5%float] (Some 0%float) None).2
  = Some (Ret (1.5%float, []))
  /\ PrimFloat.leb 0%float 1.5%float = true
  /\ PrimFloat.ltb 1.5%float 0%float = false.
Proof. repeat split. Qed.

(** The draws 8, 5, 7 in kilograms per hour under the bound 3: 8 converts to
    4 and is discarded, 5 converts to 2.5 and is returned, 7 stays in the
    source. *)
Lemma leak_rvs_below_max_witness :
  PrimFloat.ltb 2.5%float 3%float = true
  /\ PrimFloat.leb 3%float 2.5%float = false.
Proof.
  exact (proj1 (leak_rvs_below_max Examples.gas_convert
                  [8%float; 5%float; 7%float] 3%float
                  (Some ["kilogram"; "hour"]) 2.5%float [7%float] eq_refl)
               eq_refl).
Defined.

Lemma leak_rvs_converts_iff_witness :
  (exists rejected draw,
      [8%float; 5%float; 7%float] = rejected ++ draw :: [7%float]
      /\ 2.5%float = Examples.gas_convert draw "Kilogram" "Hour"
      /\ (leak_rvs Examples.gas_convert [8%float; 5%float; 7%float]
            (Some 3%float) (Some ["Kilogram"; "Hour"])).1
         = map (fun x => EGasConvert x "Kilogram" "Hour") (rejected ++ [draw]))
  /\ leak_rvs Examples.gas_convert [8%float; 5%float; 7%float] (Some 3%float)
       (Some ["GRAM"; "Hour"])
     = leak_rvs Examples.gas_convert [8%float; 5%float; 7%float] (Some 3%float)
         None.
Proof.
  split.
  - exact (proj2 (proj2 (proj2 (proj2
             (leak_rvs_converts_iff Examples.gas_convert
                [8%float; 5%float; 7%float] (Some 3%float)
                "Kilogram" "Hour" 2.5%float [7%float]))))
             eq_refl eq_refl).
  - exact (proj1 (proj2 (proj2 (proj2
             (leak_rvs_converts_iff Examples.gas_convert
                [8%float; 5%float; 7%float] (Some 3%float)
                "GRAM" "Hour" 0%float []))))
             eq_refl).
Defined.

(** A sample with a zero and a negative entry: the first fit fails, the
    second is given the one positive entry and succeeds.  A sample without
    a positive entry: the second fit is given nothing, and its error is what
    comes out. *)
Lemma fit_dist_retries_once_witness :
  (fit_dist Examples.scipy_stats Examples.dist_fit Examples.json_loads
     (Some [0%float; 1.5%float; (-2)%float]) (VStr "lognorm")
     (VInt 0) VNone VNone).1
  = [EFit "lognorm" [0%float; 1.5%float; (-2)%float] (VInt 0);
     EFit "lognorm" [1.5%float] (VInt 0)]
  /\ (fit_dist Examples.scipy_stats Examples.dist_fit Examples.json_loads
        (Some [0%float; (-2)%float]) (VStr "lognorm")
        (VInt 0) VNone VNone).2
     = Raise (LibError 0).
Proof.
  split.
  - exact (proj1 (proj2 (proj2
             (fit_dist_retries_once Examples.scipy_stats Examples.dist_fit
                Examples.json_loads [0%float; 1.5%float; (-2)%float]
                "lognorm" (VInt 0) VNone VNone (LibError 3)
                (ex_intro _ 1%nat eq_refl) eq_refl)))).
  - exact (proj1 (proj2 (proj2 (proj2
             (fit_dist_retries_once Examples.scipy_stats Examples.dist_fit
                Examples.json_loads [0%float; (-2)%float]
                "lognorm" (VInt 0) VNone VNone (LibError 2)
                (ex_intro _ 1%nat eq_refl) eq_refl))))
             (LibError 0) eq_refl).
Defined.

(** C5 as stated fails: fitted with location 0, the distribution is built
    with the tuple (0,) for location, not with 0. *)
Lemma fit_dist_location_is_a_tuple :
  (fit_dist Examples.scipy_stats Examples.dist_fit Examples.json_loads
     (Some [1.5%float]) (VStr "lognorm") (VInt 0) VNone VNone).2
  = Ret (VFrozen "lognorm" [VTuple [VFloat 0.5%float]]
           (VTuple [VInt 0]) (VFloat 2%float))
  /\ VTuple [VInt 0] <> VInt 0.
Proof. split; [reflexivity|discriminate]. Qed.

Lemma fit_dist_fixed_location_witness :
  exists param l sc args,
    (fit_samples Examples.dist_fit "lognorm" [1.5%float] (VInt 0)).2 = Ret param
    /\ index_from_end param 2 = Ret l
    /\ index_from_end param 1 = Ret sc
    /\ VFrozen "lognorm" [VTuple [VFloat 0.5%float]] (VTuple [VInt 0])
         (VFloat 2%float)
       = VFrozen "lognorm" args (VTuple [l]) sc
    /\ ((forall s p, Examples.dist_fit "lognorm" s (VInt 0) = Ret p ->
                     index_from_end p 2 = Ret (VInt 0)) ->
        VFrozen "lognorm" [VTuple [VFloat 0.5%float]] (VTuple [VInt 0])
          (VFloat 2%float)
        = VFrozen "lognorm" args (VTuple [VInt 0]) sc).
Proof.
  exact (proj2 (fit_dist_fixed_location Examples.scipy_stats Examples.dist_fit
                  Examples.json_loads [1.5%float] "lognorm" (VInt 0) VNone VNone)
               _ eq_refl).
Defined.

(** The shape "[2, 23.4]" and the list it denotes. *)
Lemma fit_dist_shape_normalized_witness :
  fit_dist Examples.scipy_stats Examples.dist_fit Examples.json_loads
    None (VStr "beta") (VInt 0) (VStr "[2, 23.4]") (VFloat 1%float)
  = fit_dist Examples.scipy_stats Examples.dist_fit Examples.json_loads
      None (VStr "beta") (VInt 0)
      (VList [VInt 2; VFloat 0x1.7666666666666p+4%float]) (VFloat 1%float).
Proof.
  exact (proj2 (proj2 (proj1
           (fit_dist_shape_normalized Examples.scipy_stats Examples.dist_fit
              Examples.json_loads)
           "[2, 23.4]" [VInt 2; VFloat 0x1.7666666666666p+4%float] eq_refl))
           (VStr "beta") (VInt 0) (VFloat 1%float)).
Defined.

(** The valve of the example program: [np.exp] is applied to the
    configured scale 1, once. *)
Lemma unpackage_dist_lognorm_scale_witness :
  exists subtype' evs_n e args,
    subtypes (Examples.run_loader Examples.facility "inputs").1.1 !! 0%nat
    = Some ("valve", subtype')
    /\ unpackage_subtype Examples.scipy_stats Examples.dist_fit
         Examples.json_loads Examples.np_exp Examples.read_first_column
         "inputs" Examples.valve
       = (subtype', evs_n, Ret tt)
    /\ Examples.np_exp (VFloat 1%float) = Ret e
    /\ subtype' !! "leak_rate_dist" = Some (VFrozen "lognorm" args (VInt 0) e)
    /\ subtype' !! "dist_scale" = Some e
    /\ exp_calls evs_n = [EExp (VFloat 1%float)].
Proof.
  apply (unpackage_dist_lognorm_scale Examples.scipy_stats Examples.dist_fit
           Examples.json_loads Examples.np_exp Examples.read_first_column
           Examples.facility
           (Examples.run_loader Examples.facility "inputs").1.1
           "inputs"
           (Examples.run_loader Examples.facility "inputs").1.2
           0%nat "valve" Examples.valve (VFloat 1%float)).
  - vm_compute. reflexivity.
  - reflexivity.
  - left. vm_compute. reflexivity.
  - vm_compute. reflexivity.
  - vm_compute. reflexivity.
Defined.

(** C7 as stated fails: a subtype whose source is spelled "Sample" is passed
    over, and has neither field after the run. *)
Lemma unpackage_dist_unknown_source_neither :
  Examples.run_loader {| subtypes := [("pump", Examples.pump)] |} "inputs"
  = ({| subtypes := [("pump", Examples.pump)] |}, [], Ret tt)
  /\ Examples.pump !! "leak_rate_dist" = None
  /\ Examples.pump !! "empirical_leak_rates" = None.
Proof. repeat split; vm_compute; reflexivity. Qed.

(** The flange of the example program gets its rates and no distribution. *)
Lemma unpackage_dist_one_of_witness :
  exists subtype',
    subtypes (Examples.run_loader Examples.facility "inputs").1.1 !! 1%nat
    = Some ("flange", subtype')
    /\ is_Some (subtype' !! "empirical_leak_rates")
    /\ subtype' !! "leak_rate_dist" = None.
Proof.
  destruct (unpackage_dist_one_of Examples.scipy_stats Examples.dist_fit
              Examples.json_loads Examples.np_exp Examples.read_first_column
              Examples.facility
              (Examples.run_loader Examples.facility "inputs").1.1
              "inputs"
              (Examples.run_loader Examples.facility "inputs").1.2
              1%nat "flange" Examples.flange)
    as (subtype' & Hn & _ & Hsample & _).
  - vm_compute. reflexivity.
  - reflexivity.
  - vm_compute. reflexivity.
  - vm_compute. reflexivity.
  - exists subtype'. split; [exact Hn|]. apply Hsample. vm_compute. reflexivity.
Defined.

(** C10 as stated fails.  For a negative interval: from minute 10 down to
    minute 0 in steps of -5 the span is negative, the function returns, and
    the timestamps decrease.  And a run whose span is no multiple of the
    interval can end all the same, in [OverflowError]: from the first
    microsecond of year 1 towards the second in steps of 3000000000 minutes,
    the second step leaves the range of [datetime]. *)
Lemma init_orbit_poly_negative_interval :
  (exists polygon_list,
      init_orbit_poly unit Examples.get_position Examples.ecef_to_llh
        2 600000000 0 (-5)
      = Some (Ret ([600000000; 300000000], polygon_list))
      /\ 0 - 600000000 < 0
      /\ ~ StronglySorted Z.lt [600000000; 300000000])
  /\ init_orbit_poly unit Examples.get_position Examples.ecef_to_llh
       2 0 1 3000000000
     = Some (Raise OverflowError).
Proof.
  split; [|reflexivity].
  eexists. split; [reflexivity|]. split; [lia|].
  intros H. inversion H as [|? ? _ Hall]; subst.
  inversion Hall as [|? ? Hlt _]; subst. lia.
Qed.

(** Three minutes in steps of one: three passes. *)
Lemma init_orbit_poly_returns_iff_witness :
  (exists fuel res,
      init_orbit_poly unit Examples.get_position Examples.ecef_to_llh
        fuel 0 180000000 1 = Some (Ret res))
  /\ StronglySorted Z.lt [0; 60000000; 120000000].
Proof.
  pose proof (init_orbit_poly_returns_iff unit Examples.get_position
                Examples.ecef_to_llh 0 180000000 1) as [Hshape Hiff].
  split.
  - apply Hiff.
    + intros t. exists tt, (0%float, 0%float, 500%float). split; reflexivity.
    + unfold datetime_max. lia.
    + unfold datetime_max. lia.
    + exists 3%nat. reflexivity.
  - destruct (Hshape 3%nat [0; 60000000; 120000000]
                (snd (match init_orbit_poly unit Examples.get_position
                              Examples.ecef_to_llh 3 0 180000000 1 with
                      | Some (Ret r) => r
                      | _ => ([], [])
                      end)) eq_refl)
      as (_ & _ & _ & _ & _ & Hsorted).
    apply Hsorted. lia.
Defined.

(** One and a half minutes in steps of one: the guard never fails, and no
    amount of fuel makes the function return. *)
Lemma init_orbit_poly_steps_over (fuel : nat) (res : list Z * list Polygon) :
  init_orbit_poly unit Examples.get_position Examples.ecef_to_llh
    fuel 0 90000000 1 <> Some (Ret res).
Proof.
  intros H. destruct res as [days polys].
  apply orbit_loop_returns_inv in H.
  destruct H as (k & _ & _ & Hk & _). lia.
Qed.

End WorkedExamples.

(** * Further properties *)

(** ** leak_rvs: bounds and conversion lists at the edges *)

Section LeakRvsEdges.

Import Distributions.

Variable gas_convert : float -> string -> string -> float.

Local Abbreviation convert := (convert gas_convert).
Local Abbreviation leak_rvs := (leak_rvs gas_convert).

Lemma ltb_nan_r (x : float) : PrimFloat.ltb x nan = false.
Proof.
  rewrite ltb_spec. unfold SFltb.
  change (Prim2SF nan) with S754_nan.
  destruct (Prim2SF x); reflexivity.
Qed.

(** [leak_rvs] sees the conversion list only through [convert]. *)
Lemma leak_rvs_convert_ext (gp1 gp2 : option (list string)) :
  (forall x, convert gp1 x = convert gp2 x) ->
  forall rvs max_size, leak_rvs rvs max_size gp1 = leak_rvs rvs max_size gp2.
Proof.
  intros H rvs max_size. induction rvs as [|x rvs IH]; [reflexivity|].
  rewrite !leak_rvs_cons, H, IH. reflexivity.
Qed.

(** X1: a bound that is NaN lets nothing through.  No draw compares below
    NaN, so [leak_rvs] returns no value however many draws it is given; with
    no conversion pair it is still drawing after any number of draws. *)
Theorem leak_rvs_nan_bound_never_returns :
  (forall rvs gp v rest,
      (leak_rvs rvs (Some nan) gp).2 <> Some (Ret (v, rest)))
  /\ (forall rvs, leak_rvs rvs (Some nan) None = ([], None)).
Proof.
  split.
  - intros rvs gp v rest H.
    destruct (leak_rvs_returns_inv _ _ _ _ _ _ H) as (_ & _ & _ & _ & Hacc & _).
    cbn in Hacc. rewrite ltb_nan_r in Hacc. discriminate.
  - induction rvs as [|x rvs IH]; [reflexivity|].
    rewrite leak_rvs_cons, convert_none, IH. cbn.
    rewrite ltb_nan_r. reflexivity.
Qed.

(** X2: conversion lists of other lengths.  An empty list is no list; a list
    whose first entry lowers to "gram" is no list either, whatever follows;
    a one-entry list with another metric raises [IndexError] on the first
    draw, before any conversion or comparison; entries after the second are
    never read. *)
Theorem leak_rvs_conversion_list_shapes (rvs : list float)
    (max_size : option float) :
  leak_rvs rvs max_size (Some []) = leak_rvs rvs max_size None
  /\ (forall metric more,
        String.eqb (lower metric) "gram" = true ->
        leak_rvs rvs max_size (Some (metric :: more))
        = leak_rvs rvs max_size None)
  /\ (forall metric draw,
        String.eqb (lower metric) "gram" = false ->
        leak_rvs (draw :: rvs) max_size (Some [metric])
        = ([], Some (Raise IndexError)))
  /\ (forall metric increment more,
        leak_rvs rvs max_size (Some (metric :: increment :: more))
        = leak_rvs rvs max_size (Some [metric; increment])).
Proof.
  split; [|split; [|split]].
  - apply leak_rvs_convert_ext. reflexivity.
  - intros metric more Hg. apply leak_rvs_convert_ext. intros x.
    unfold Distributions.convert. rewrite Hg. reflexivity.
  - intros metric draw Hg. rewrite leak_rvs_cons.
    unfold Distributions.convert. rewrite Hg. reflexivity.
  - intros metric increment more. apply leak_rvs_convert_ext. reflexivity.
Qed.

(** X3: [leak_rvs] takes no more draws than it needs.  When it returns on a
    source of draws, it returns the same value after the same conversions on
    any longer source, and hands back the extra draws untouched. *)
Theorem leak_rvs_takes_what_it_needs (rvs more : list float)
    (max_size : option float) (gp : option (list string))
    (evs : list event) (v : float) (rest : list float) :
  leak_rvs rvs max_size gp = (evs, Some (Ret (v, rest))) ->
  leak_rvs (rvs ++ more) max_size gp = (evs, Some (Ret (v, rest ++ more))).
Proof.
  revert evs. induction rvs as [|x rvs IH]; intros evs; [discriminate|].
  cbn [app]. rewrite !leak_rvs_cons.
  destruct (convert gp x) as [e1 [w|e]]; [|discriminate].
  destruct (negb (truthy_max max_size) || below_max w max_size).
  - intros [= <- <- <-]. reflexivity.
  - destruct (leak_rvs rvs max_size gp) as [e2 r] eqn:Er. cbn [fst snd].
    intros [= <- ->]. rewrite (IH e2 eq_refl). reflexivity.
Qed.

End LeakRvsEdges.

(** ** fit_dist: failures and the shape of the result *)

Section FitDistEdges.

Import Distributions.

Variable scipy_stats : string -> option nat.
Variable dist_fit : string -> list float -> value -> result (list value).
Variable json_loads : string -> result value.

Local Abbreviation fit_dist := (fit_dist scipy_stats dist_fit json_loads).
Local Abbreviation fit_samples := (fit_samples dist_fit).
Local Abbreviation normalize_shape := (normalize_shape json_loads).

(** X4: the family is looked up before anything else.  A name scipy does
    not have raises [AttributeError], a [dist_type] that is no string raises
    [TypeError], in both modes and without a single call of the fit. *)
Theorem fit_dist_family_first (samples : option (list float))
    (loc shape scale : value) :
  (forall name,
      scipy_stats name = None ->
      fit_dist samples (VStr name) loc shape scale
      = ([], Raise (AttributeError name)))
  /\ (forall dist_type,
        (forall name, dist_type <> VStr name) ->
        fit_dist samples dist_type loc shape scale = ([], Raise TypeError)).
Proof.
  split.
  - intros name Hn. unfold Distributions.fit_dist, getattr_stats.
    rewrite Hn. reflexivity.
  - intros dist_type Hd. unfold Distributions.fit_dist, getattr_stats.
    destruct dist_type; try reflexivity. destruct (Hd _ eq_refl).
Qed.

(** In empirical mode the [shape] and [scale] arguments are not used; the
    fitted parameters replace them. *)
Lemma fit_dist_empirical_ignores_shape_scale (samples : list float)
    (dist_type loc shape scale shape' scale' : value) :
  fit_dist (Some samples) dist_type loc shape scale
  = fit_dist (Some samples) dist_type loc shape' scale'.
Proof.
  unfold Distributions.fit_dist.
  destruct (getattr_stats scipy_stats dist_type); reflexivity.
Qed.

(** When the first fit succeeds it is the only one: the fit is called
    once, on all the samples, zero and negative ones included, and the
    distribution is built from what it returns. *)
Lemma fit_dist_first_fit_succeeds (samples : list float) (name : string)
    (loc shape scale : value) (param : list value) :
  is_Some (scipy_stats name) ->
  dist_fit name samples loc = Ret param ->
  fit_dist (Some samples) (VStr name) loc shape scale
  = ([EFit name samples loc],
     '(l, sc, sh) ← unpack_param param;
     sh' ← normalize_shape sh;
     freeze scipy_stats name sh' l sc).
Proof.
  intros Hfam Hfit. rewrite (fit_dist_empirical _ _ _ _ _ _ _ _ Hfam).
  unfold Distributions.fit_samples. rewrite Hfit. reflexivity.
Qed.

Lemma skipn_nth_error {A : Type} (l : list A) (k : nat) (a : A) :
  nth_error l k = Some a -> skipn k l = a :: skipn (S k) l.
Proof.
  revert k. induction l as [|x l IH]; intros [|k]; cbn; try discriminate.
  - intros [= ->]. reflexivity.
  - apply IH.
Qed.

Lemma index_from_end_split (param : list value) (l sc : value) :
  index_from_end param 2 = Ret l ->
  index_from_end param 1 = Ret sc ->
  param = firstn (length param - 2) param ++ [l; sc].
Proof.
  unfold index_from_end.
  destruct (2 <=? length param)%nat eqn:E2; [|discriminate].
  apply Nat.leb_le in E2.
  destruct (1 <=? length param)%nat; [|discriminate].
  destruct (nth_error param (length param - 2)) as [a|] eqn:Ea; [|discriminate].
  destruct (nth_error param (length param - 1)) as [b|] eqn:Eb; [|discriminate].
  intros [= <-] [= <-].
  rewrite <- (firstn_skipn (length param - 2) param) at 1. f_equal.
  rewrite (skipn_nth_error _ _ _ Ea).
  replace (S (length param - 2)) with (length param - 1)%nat by lia.
  rewrite (skipn_nth_error _ _ _ Eb).
  replace (S (length param - 1)) with (length param) by lia.
  rewrite skipn_all. reflexivity.
Qed.

(** X5: what empirical mode builds.  The fitted tuple is split into its
    shapes, its location and its scale; the distribution gets the shapes as
    one positional argument, a tuple, so it can only be built for a family
    with exactly one shape parameter.  A fitted tuple of fewer than two
    entries raises [IndexError]. *)
Theorem fit_dist_empirical_result (samples : list float) (name : string)
    (loc shape scale : value) :
  (forall d,
      (fit_dist (Some samples) (VStr name) loc shape scale).2 = Ret d ->
      scipy_stats name = Some 1%nat
      /\ exists shapes l sc,
          (fit_samples name samples loc).2 = Ret (shapes ++ [l; sc])
          /\ d = VFrozen name [VTuple shapes] (VTuple [l]) sc)
  /\ (forall param,
        is_Some (scipy_stats name) ->
        (fit_samples name samples loc).2 = Ret param ->
        (length param < 2)%nat ->
        (fit_dist (Some samples) (VStr name) loc shape scale).2
        = Raise IndexError).
Proof.
  split.
  - intros d Hd.
    destruct (fit_dist_unknown _ _ _ _ _ _ _ _ _ Hd)
      as (name' & [= <-] & Hfam).
    rewrite (fit_dist_empirical _ _ _ _ _ _ _ _ Hfam) in Hd. cbn [snd] in Hd.
    destruct (fit_samples name samples loc) as [evs [param|e]] eqn:Ef;
      [|discriminate].
    cbn in Hd. unfold unpack_param in Hd.
    destruct (index_from_end param 2) as [l|] eqn:El; [|discriminate].
    destruct (index_from_end param 1) as [sc|] eqn:Esc; [|discriminate].
    cbn in Hd. unfold Distributions.freeze in Hd.
    destruct (scipy_stats name) as [n|]; [|discriminate].
    destruct n as [|[|n]]; try discriminate.
    unfold mret, result_ret in Hd. injection Hd as <-.
    split; [reflexivity|].
    exists (firstn (length param - 2) param), l, sc. cbn [snd].
    split; [|reflexivity].
    f_equal. apply index_from_end_split; assumption.
  - intros param Hfam Hp Hlen.
    rewrite (fit_dist_empirical _ _ _ _ _ _ _ _ Hfam). cbn [snd].
    rewrite Hp. cbn. unfold unpack_param, index_from_end.
    destruct (2 <=? length param)%nat eqn:E; [apply Nat.leb_le in E; lia|].
    reflexivity.
Qed.

(** X6: parametric mode never calls the fit.  For a family with [n] shape
    parameters the result is the error of the shape's decoding if it has
    one, [TypeError] if the normalized shape has not [n] items, and the
    distribution on those items otherwise. *)
Theorem fit_dist_parametric_outcome (name : string) (n : nat)
    (loc shape scale : value) :
  scipy_stats name = Some n ->
  (fit_dist None (VStr name) loc shape scale).1 = []
  /\ (forall e,
        normalize_shape shape = Raise e ->
        (fit_dist None (VStr name) loc shape scale).2 = Raise e)
  /\ (forall s e,
        shape = VStr s -> json_loads s = Raise e ->
        (fit_dist None (VStr name) loc shape scale).2 = Raise e)
  /\ (forall items,
        normalize_shape shape = Ret (VList items) ->
        (fit_dist None (VStr name) loc shape scale).2
        = if (length items =? n)%nat
          then Ret (VFrozen name items loc scale)
          else Raise TypeError).
Proof.
  intros Hn.
  assert (Hfam : is_Some (scipy_stats name)) by (rewrite Hn; eauto).
  rewrite (fit_dist_parametric _ _ _ _ _ _ _ Hfam). cbn [fst snd].
  split; [reflexivity|]. split; [|split].
  - intros e ->. reflexivity.
  - intros s e -> Hs. unfold Distributions.normalize_shape. rewrite Hs.
    reflexivity.
  - intros items ->. cbn. rewrite Hn. reflexivity.
Qed.

End FitDistEdges.

(** ** unpackage_dist: what is written, what is kept, how it fails *)

Section UnpackageDistEdges.

Import Distributions Notions.

Variable scipy_stats : string -> option nat.
Variable dist_fit : string -> list float -> value -> result (list value).
Variable json_loads : string -> result value.
Variable np_exp : value -> result value.
Variable read_first_column : string -> string -> result (list float).

Local Abbreviation fit_dist := (fit_dist scipy_stats dist_fit json_loads).
Local Abbreviation unpackage_subtype :=
  (unpackage_subtype scipy_stats dist_fit json_loads np_exp read_first_column).
Local Abbreviation unpackage_subtypes :=
  (unpackage_subtypes scipy_stats dist_fit json_loads np_exp read_first_column).
Local Abbreviation unpackage_dist :=
  (unpackage_dist scipy_stats dist_fit json_loads np_exp read_first_column).

Lemma keeps_bind {A B : Type} (key : string) (m : loader A) (k : A -> loader B) :
  keeps key m -> (forall a, keeps key (k a)) -> keeps key (m ≫= k).
Proof.
  intros Hm Hk d d' evs r. unfold mbind, loader_bind.
  destruct (m d) as [[d1 e1] [a|e]] eqn:Em.
  - destruct (k a d1) as [[d2 e2] r2] eqn:Ek. intros [= <- _ _].
    rewrite (Hk _ _ _ _ _ Ek). eapply Hm, Em.
  - intros [= <- _ _]. eapply Hm, Em.
Qed.

Lemma keeps_find (key k : string) : keeps key (find k).
Proof. intros d d' evs r [= <- _ _]. reflexivity. Qed.

Lemma keeps_getitem (key k : string) : keeps key (getitem k).
Proof.
  intros d d' evs r. unfold getitem. destruct (d !! k); intros [= <- _ _];
    reflexivity.
Qed.

Lemma keeps_setitem (key k : string) (v : value) :
  k <> key -> keeps key (setitem k v).
Proof.
  intros Hne d d' evs r [= <- _ _]. apply lookup_insert_ne, Hne.
Qed.

Lemma keeps_call {A : Type} (key : string) (c : list event * result A) :
  keeps key (call c).
Proof. intros d d' evs r [= <- _ _]. reflexivity. Qed.

Lemma keeps_mret {A : Type} (key : string) (a : A) :
  keeps key (mret a : loader A).
Proof. intros d d' evs r [= <- _ _]. reflexivity. Qed.

Lemma keeps_throw {A : Type} (key : string) (e : exn) :
  keeps key (throw e : loader A).
Proof. intros d d' evs r [= <- _ _]. reflexivity. Qed.

Lemma unpackage_subtype_keeps (wd key : string) :
  unwritten key -> keeps key (unpackage_subtype wd).
Proof.
  intros (H1 & H2 & H3 & H4).
  unfold Distributions.unpackage_subtype, exponentiate_lognorm_scale,
    promote_sigma, attach_dist, attach_samples.
  repeat first
    [ apply keeps_find | apply keeps_getitem | apply keeps_call
    | apply keeps_mret | apply keeps_throw
    | apply keeps_setitem; congruence
    | apply keeps_bind; [|intros ?]
    | match goal with
      | |- keeps _ (if ?b then _ else _) => destruct b
      | |- keeps _ (match ?o with Some _ => _ | None => _ end) => destruct o
      | |- keeps _ (match ?v with VStr _ => _ | _ => _ end) => destruct v
      end ].
Qed.

(** How a run of the loop ends: all subtypes loaded, or a first failing
    subtype with the ones before it loaded and the ones after it as they
    were. *)
Lemma unpackage_subtypes_ends (wd : string)
    (sts : list (string * gmap string value)) :
  forall sts' evs r,
    unpackage_subtypes wd sts = (sts', evs, r) ->
    match r with
    | Ret _ =>
        Forall2 (fun p p' =>
                   p.1 = p'.1
                   /\ exists evs_n,
                       unpackage_subtype wd p.2 = (p'.2, evs_n, Ret tt))
                sts sts'
    | Raise e =>
        exists before before' st_idx subtype subtype' evs_n after,
          sts = before ++ (st_idx, subtype) :: after
          /\ sts' = before' ++ (st_idx, subtype') :: after
          /\ Forall2 (fun p p' =>
                        p.1 = p'.1
                        /\ exists evs_n,
                            unpackage_subtype wd p.2 = (p'.2, evs_n, Ret tt))
                     before before'
          /\ unpackage_subtype wd subtype = (subtype', evs_n, Raise e)
    end.
Proof.
  induction sts as [|[i st] sts IH]; intros sts' evs r.
  - intros [= <- <- <-]. constructor.
  - cbn [Distributions.unpackage_subtypes].
    destruct (unpackage_subtype wd st) as [[st' e1] [[]|e]] eqn:Est.
    + destruct (unpackage_subtypes wd sts) as [[rest' e2] r'] eqn:Erest.
      intros [= <- <- <-]. specialize (IH _ _ _ eq_refl).
      destruct r' as [[]|e].
      * constructor; [|exact IH]. split; [reflexivity|]. cbn. eauto.
      * destruct IH as (bf & bf' & j & s0 & s0' & en & af & -> & -> & HF & Hs).
        exists ((i, st) :: bf), ((i, st') :: bf'), j, s0, s0', en, af.
        repeat split; auto. constructor; [|exact HF].
        split; [reflexivity|]. cbn. eauto.
    + intros [= <- <- <-].
      exists [], [], i, st, st', e1, sts. repeat split; auto.
Qed.

(** X7: the loader keeps the program's shape and everything it does not
    assign.  However the run ends, the program has the same subtypes under
    the same identifiers in the same order, and in each of them every key
    other than [dist_scale], [dist_shape], [leak_rate_dist] and
    [empirical_leak_rates] holds what it held. *)
Theorem unpackage_dist_keeps (prog prog' : program) (wd : string)
    (evs : list event) (r : result unit) :
  unpackage_dist prog wd = (prog', evs, r) ->
  map fst (subtypes prog') = map fst (subtypes prog)
  /\ forall n st_idx st_idx' subtype subtype' key,
      subtypes prog !! n = Some (st_idx, subtype) ->
      subtypes prog' !! n = Some (st_idx', subtype') ->
      unwritten key ->
      subtype' !! key = subtype !! key.
Proof.
  unfold Distributions.unpackage_dist.
  destruct (unpackage_subtypes wd (subtypes prog)) as [[sts' evs'] r'] eqn:Er.
  intros [= <- <- <-]. cbn [subtypes].
  apply unpackage_subtypes_ends in Er.
  assert (Hloaded : forall l l',
    Forall2 (fun p p' : string * gmap string value =>
               p.1 = p'.1
               /\ exists evs_n,
                   unpackage_subtype wd p.2 = (p'.2, evs_n, Ret tt)) l l' ->
    map fst l' = map fst l
    /\ forall n st_idx st_idx' subtype subtype' key,
        l !! n = Some (st_idx, subtype) ->
        l' !! n = Some (st_idx', subtype') ->
        unwritten key -> subtype' !! key = subtype !! key).
  { induction 1 as [|[i s0] [i' s0'] l l' (Hi & en & Hs) HF (IHm & IHk)].
    - split; [reflexivity|]. intros n ? ? ? ? ? Hn. destruct n; discriminate.
    - cbn in Hi, Hs. subst i'. split; [cbn; congruence|].
      intros [|n] st_idx st_idx' subtype subtype' key Hn Hn' Hk; cbn in Hn, Hn'.
      + injection Hn as <- <-. injection Hn' as <- <-.
        eapply unpackage_subtype_keeps; eauto.
      + eapply IHk; eauto. }
  destruct r' as [[]|e]; [apply Hloaded, Er|].
  destruct Er as (bf & bf' & j & s0 & s0' & en & af & -> & -> & HF & Hs).
  destruct (Hloaded _ _ HF) as (Hm & Hk).
  pose proof (Forall2_length _ _ _ HF) as Hlen.
  split.
  - rewrite !map_app. cbn. rewrite Hm. reflexivity.
  - intros n st_idx st_idx' subtype subtype' key Hn Hn' Hkey.
    destruct (lt_eq_lt_dec n (length bf)) as [[Hlt|Heq]|Hgt].
    + rewrite lookup_app_l in Hn by lia.
      rewrite lookup_app_l in Hn' by lia. eapply Hk; eauto.
    + subst n. rewrite list_lookup_middle in Hn by reflexivity.
      rewrite list_lookup_middle in Hn' by lia.
      injection Hn as <- <-. injection Hn' as <- <-.
      eapply unpackage_subtype_keeps; eauto.
    + rewrite lookup_app_r in Hn by lia.
      rewrite lookup_app_r in Hn' by lia.
      rewrite <- Hlen in Hn'.
      destruct (n - length bf)%nat as [|m] eqn:Em; [lia|].
      cbn in Hn, Hn'. congruence.
Qed.

(** X8: a failing run stops at the first subtype that fails.  The error is
    that subtype's; the subtypes before it have been loaded, the subtypes
    after it are exactly as they were, and the failing subtype holds what
    its own unfinished run left in it. *)
Theorem unpackage_dist_stops_at_first_failure (prog prog' : program)
    (wd : string) (evs : list event) (e : exn) :
  unpackage_dist prog wd = (prog', evs, Raise e) ->
  exists before before' st_idx subtype subtype' evs_n after,
    subtypes prog = before ++ (st_idx, subtype) :: after
    /\ subtypes prog' = before' ++ (st_idx, subtype') :: after
    /\ length before' = length before
    /\ unpackage_subtype wd subtype = (subtype', evs_n, Raise e)
    /\ forall n p,
        before !! n = Some p ->
        exists subtype_n evs_p,
          before' !! n = Some (p.1, subtype_n)
          /\ unpackage_subtype wd p.2 = (subtype_n, evs_p, Ret tt).
Proof.
  unfold Distributions.unpackage_dist.
  destruct (unpackage_subtypes wd (subtypes prog)) as [[sts' evs'] r'] eqn:Er.
  intros [= <- <- ->]. cbn [subtypes].
  apply unpackage_subtypes_ends in Er.
  destruct Er as (bf & bf' & j & s0 & s0' & en & af & E1 & E2 & HF & Hs).
  exists bf, bf', j, s0, s0', en, af.
  split; [exact E1|]. split; [exact E2|].
  split; [symmetry; eapply Forall2_length, HF|]. split; [exact Hs|].
  intros n p Hn.
  destruct (Forall2_lookup_l _ _ _ _ _ HF Hn) as ([i' s'] & Hn' & Hi & en' & Hl).
  cbn in Hi, Hl. subst i'. eauto.
Qed.

(** X9: keys missing from a parametric subtype.  Without [dist_type]
    the subtype raises [KeyError] untouched; a lognorm subtype without
    [dist_scale] likewise; but a lognorm subtype that has its scale and
    neither [dist_sigma] nor [dist_shape] raises [KeyError] for
    [dist_shape] after its [dist_scale] has been replaced by the
    exponential. *)
Theorem unpackage_subtype_missing_keys (wd : string) (d : gmap string value) :
  d !! "leak_rate_source" = None
  \/ d !! "leak_rate_source" = Some (VStr "dist") ->
  (d !! "dist_type" = None ->
   unpackage_subtype wd d = (d, [], Raise (KeyError "dist_type")))
  /\ (d !! "dist_type" = Some (VStr "lognorm") ->
      d !! "dist_scale" = None ->
      unpackage_subtype wd d = (d, [], Raise (KeyError "dist_scale")))
  /\ (forall configured e,
        d !! "dist_type" = Some (VStr "lognorm") ->
        d !! "dist_scale" = Some configured ->
        np_exp configured = Ret e ->
        d !! "dist_sigma" = None ->
        d !! "dist_shape" = None ->
        unpackage_subtype wd d
        = (<["dist_scale" := e]> d, [EExp configured],
           Raise (KeyError "dist_shape"))).
Proof.
  intros Hsrc.
  assert (Hmode : match d !! "leak_rate_source" with
                  | Some v => eq_str v "dist"
                  | None => true
                  end = true) by (destruct Hsrc as [-> | ->]; reflexivity).
  unfold Distributions.unpackage_subtype. rewrite bind_find, Hmode.
  unfold exponentiate_lognorm_scale, promote_sigma, attach_dist.
  split; [|split].
  - intros Hdt. unfold mbind, loader_bind, getitem. rewrite Hdt. reflexivity.
  - intros Hdt Hsc. unfold mbind, loader_bind, getitem. rewrite Hdt. cbn.
    rewrite Hsc. reflexivity.
  - intros configured e Hdt Hsc He Hsg Hsh.
    unfold mbind, loader_bind, getitem, setitem, call, find.
    repeat progress (rewrite ?lookup_insert_ne by discriminate;
                     rewrite ?Hdt, ?Hsc, ?He, ?Hsg, ?Hsh; cbn).
    reflexivity.
Qed.

(** Split a returning run into the runs of its three statements. *)
Lemma unpackage_subtype_dist_steps (wd : string) (d d' : gmap string value)
    (evs : list event) :
  d !! "leak_rate_source" = None
  \/ d !! "leak_rate_source" = Some (VStr "dist") ->
  unpackage_subtype wd d = (d', evs, Ret tt) ->
  exists d1 e1 e3,
    exponentiate_lognorm_scale np_exp d = (d1, e1, Ret tt)
    /\ attach_dist scipy_stats dist_fit json_loads
         (match d1 !! "dist_sigma" with
          | Some sigma => <["dist_shape" := VList [sigma]]> d1
          | None => d1
          end)
       = (d', e3, Ret tt)
    /\ d1 !! "dist_sigma" = d !! "dist_sigma"
    /\ d1 !! "dist_shape" = d !! "dist_shape".
Proof.
  intros Hsrc. unfold Distributions.unpackage_subtype.
  rewrite bind_find.
  assert (Hmode : match d !! "leak_rate_source" with
                  | Some v => eq_str v "dist"
                  | None => true
                  end = true) by (destruct Hsrc as [-> | ->]; reflexivity).
  rewrite Hmode. intros H.
  apply bind_ret_inv in H. destruct H as ([] & d1 & e1 & e2 & H1 & H & _).
  apply bind_ret_inv in H. destruct H as ([] & d2 & e2' & e3 & H2 & H3 & _).
  rewrite promote_sigma_eq in H2. injection H2 as <- _.
  exists d1, e1, e3. split; [exact H1|]. split; [exact H3|].
  apply exponentiate_lognorm_scale_inv in H1.
  destruct H1 as (dt & _ & Hsc).
  destruct (eq_str dt "lognorm").
  - destruct Hsc as (c & e & _ & _ & _ & ->).
    rewrite !lookup_insert_ne by discriminate. auto.
  - destruct Hsc as (_ & ->). auto.
Qed.

(** X10: [dist_sigma] wins over [dist_shape].  A parametric subtype that
    has a [dist_sigma] is loaded with the one-item shape holding it:
    [dist_shape] is overwritten with that list, whatever it held, and the
    distribution is built on that single item, for a family with one shape
    parameter. *)
Theorem unpackage_dist_sigma_overrides (prog prog' : program) (wd : string)
    (evs : list event) (n : nat) (st_idx : string)
    (subtype : gmap string value) (sigma : value) :
  unpackage_dist prog wd = (prog', evs, Ret tt) ->
  subtypes prog !! n = Some (st_idx, subtype) ->
  subtype !! "leak_rate_source" = None
  \/ subtype !! "leak_rate_source" = Some (VStr "dist") ->
  subtype !! "dist_sigma" = Some sigma ->
  exists subtype' name scale,
    subtypes prog' !! n = Some (st_idx, subtype')
    /\ subtype' !! "dist_shape" = Some (VList [sigma])
    /\ subtype' !! "leak_rate_dist"
       = Some (VFrozen name [sigma] (VInt 0) scale)
    /\ scipy_stats name = Some 1%nat.
Proof.
  intros Hrun Hn Hsrc Hsg.
  unfold Distributions.unpackage_dist in Hrun.
  destruct (unpackage_subtypes wd (subtypes prog)) as [[sts' evs'] r] eqn:Er.
  injection Hrun as <- <- ->.
  destruct (unpackage_subtypes_lookup _ _ _ _ _ _ _ _ _ _ _ _ Er Hn)
    as (subtype' & evs_n & Hn' & Hst).
  destruct (unpackage_subtype_dist_steps _ _ _ _ Hsrc Hst)
    as (d1 & e1 & e3 & _ & H3 & Hsg1 & _).
  rewrite Hsg1, Hsg in H3.
  apply attach_dist_inv in H3.
  destruct H3 as (dt & shape & scale & frozen & _ & Hsh & _ & Hfit & _ & ->).
  rewrite lookup_insert_eq in Hsh. injection Hsh as <-.
  destruct (fit_dist_unknown _ _ _ _ _ _ _ _ _ Hfit) as (name & -> & (k & Hk)).
  destruct (fit_dist_parametric_frozen _ _ _ _ _ _ _ _ Hfit)
    as (items & Hnorm & ->).
  cbn in Hnorm. injection Hnorm as <-.
  assert (k = 1%nat).
  { unfold Distributions.fit_dist, getattr_stats, Distributions.freeze in Hfit.
    rewrite Hk in Hfit. cbn in Hfit. rewrite Hk in Hfit.
    destruct k as [|[|k]]; try discriminate. reflexivity. }
  subst k.
  exists (<["leak_rate_dist" := VFrozen name [sigma] (VInt 0) scale]>
            (<["dist_shape" := VList [sigma]]> d1)), name, scale.
  split; [exact Hn'|].
  rewrite lookup_insert_ne, !lookup_insert_eq by discriminate. auto.
Qed.

(** X11: the loader is not idempotent on a lognorm subtype.  It writes the
    exponentiated scale back into [dist_scale], so a second run over the
    program the first run left exponentiates once more: the distribution
    then stored has scale [np.exp(np.exp(configured))]. *)
Theorem unpackage_dist_twice_exponentiates_twice (prog prog1 prog2 : program)
    (wd : string) (evs1 evs2 : list event) (n : nat) (st_idx : string)
    (subtype : gmap string value) (configured : value) :
  unpackage_dist prog wd = (prog1, evs1, Ret tt) ->
  unpackage_dist prog1 wd = (prog2, evs2, Ret tt) ->
  subtypes prog !! n = Some (st_idx, subtype) ->
  subtype !! "leak_rate_source" = None
  \/ subtype !! "leak_rate_source" = Some (VStr "dist") ->
  subtype !! "dist_type" = Some (VStr "lognorm") ->
  subtype !! "dist_scale" = Some configured ->
  exists e1 e2 subtype2 args,
    np_exp configured = Ret e1
    /\ np_exp e1 = Ret e2
    /\ subtypes prog2 !! n = Some (st_idx, subtype2)
    /\ subtype2 !! "leak_rate_dist"
       = Some (VFrozen "lognorm" args (VInt 0) e2)
    /\ subtype2 !! "dist_scale" = Some e2.
Proof.
  intros Hrun1 Hrun2 Hn Hsrc Hdt Hsc.
  unfold Distributions.unpackage_dist in Hrun1, Hrun2.
  destruct (unpackage_subtypes wd (subtypes prog)) as [[sts1 ev1] r1] eqn:Er1.
  injection Hrun1 as <- <- ->. cbn [subtypes] in Hrun2.
  destruct (unpackage_subtypes wd sts1) as [[sts2 ev2] r2] eqn:Er2.
  injection Hrun2 as <- <- ->. cbn [subtypes].
  destruct (unpackage_subtypes_lookup _ _ _ _ _ _ _ _ _ _ _ _ Er1 Hn)
    as (subtype1 & en1 & Hn1 & Hst1).
  destruct (unpackage_subtypes_lookup _ _ _ _ _ _ _ _ _ _ _ _ Er2 Hn1)
    as (subtype2 & en2 & Hn2 & Hst2).
  assert (Hk : forall key, unwritten key -> subtype1 !! key = subtype !! key).
  { intros key Hkey. eapply unpackage_subtype_keeps; eauto. }
  assert (Hsrc1 : subtype1 !! "leak_rate_source" = None
                  \/ subtype1 !! "leak_rate_source" = Some (VStr "dist")).
  { rewrite Hk by (repeat split; discriminate). exact Hsrc. }
  assert (Hdt1 : subtype1 !! "dist_type" = Some (VStr "lognorm")).
  { rewrite Hk by (repeat split; discriminate). exact Hdt. }
  destruct (unpackage_subtype_dist_inv _ _ _ _ _ _ _ _ _ Hsrc Hst1)
    as (dt & e1 & _ & _ & Hdt' & Hscale & _ & _ & Hs1 & _).
  rewrite Hdt in Hdt'. injection Hdt' as <-.
  cbn in Hscale. destruct Hscale as (c & Hc & He1 & _).
  rewrite Hsc in Hc. injection Hc as <-.
  destruct (unpackage_subtype_dist_inv _ _ _ _ _ _ _ _ _ Hsrc1 Hst2)
    as (dt & e2 & shape & frozen & Hdt' & Hscale & Hfit & Hd2 & Hs2 & _).
  rewrite Hdt1 in Hdt'. injection Hdt' as <-.
  cbn in Hscale. destruct Hscale as (c & Hc & He2 & _).
  rewrite Hs1 in Hc. injection Hc as <-.
  destruct (fit_dist_parametric_frozen _ _ _ _ _ _ _ _ Hfit) as (args & _ & ->).
  exists e1, e2, subtype2, args. auto.
Qed.

(** X12: an empirical subtype needs its file and nothing else.  When its
    [leak_rate_source] is "sample", a returning run has read the first
    column of the file named by [leak_rates_file] in the working directory,
    once, has called neither [np.exp] nor the fit, and has changed the
    subtype at [empirical_leak_rates] only; without [leak_rates_file] the
    subtype raises [KeyError] untouched, and an error of the read is the
    error of the subtype. *)
Theorem unpackage_subtype_sample (wd : string) (d : gmap string value) :
  d !! "leak_rate_source" = Some (VStr "sample") ->
  (forall d' evs,
      unpackage_subtype wd d = (d', evs, Ret tt) ->
      exists file rates,
        d !! "leak_rates_file" = Some (VStr file)
        /\ read_first_column wd file = Ret rates
        /\ evs = [EReadCsv wd file]
        /\ d' = <["empirical_leak_rates" := VArray rates]> d)
  /\ (d !! "leak_rates_file" = None ->
      unpackage_subtype wd d = (d, [], Raise (KeyError "leak_rates_file")))
  /\ (forall file e,
        d !! "leak_rates_file" = Some (VStr file) ->
        read_first_column wd file = Raise e ->
        unpackage_subtype wd d = (d, [EReadCsv wd file], Raise e)).
Proof.
  intros Hsrc. split; [|split].
  - intros d' evs Hrun.
    exact (unpackage_subtype_other_inv _ _ _ _ _ _ _ _ _ _ Hsrc eq_refl Hrun).
  - intros Hf. unfold Distributions.unpackage_subtype, attach_samples.
    rewrite bind_find, Hsrc. cbn [eq_str String.eqb Ascii.eqb Bool.eqb].
    rewrite bind_getitem, Hsrc. cbn [eq_str String.eqb Ascii.eqb Bool.eqb].
    rewrite bind_getitem, Hf. reflexivity.
  - intros file e Hf He. unfold Distributions.unpackage_subtype, attach_samples.
    rewrite bind_find, Hsrc. cbn [eq_str String.eqb Ascii.eqb Bool.eqb].
    rewrite bind_getitem, Hsrc. cbn [eq_str String.eqb Ascii.eqb Bool.eqb].
    rewrite bind_getitem, Hf, bind_call. cbn [fst snd]. rewrite He.
    reflexivity.
Qed.

End UnpackageDistEdges.

(** ** gap_calculator: bounds and monotonicity *)

Section GapCalculatorMore.

Import GenericFunctions.

Lemma successive_gaps_sum (l : list Z) (a : Z) :
  fold_right Z.add 0 (successive_gaps (a :: l)) = List.last (a :: l) 0 - a.
Proof.
  revert a. induction l as [|b l IH]; intros a; [cbn; lia|].
  change (successive_gaps (a :: b :: l))
    with ((b - a) :: successive_gaps (b :: l)).
  cbn [fold_right]. rewrite IH.
  change (List.last (a :: b :: l) 0) with (List.last (b :: l) 0). lia.
Qed.

Lemma nonneg_le_sum (l : list Z) :
  Forall (fun g => 0 <= g) l ->
  Forall (fun g => g <= fold_right Z.add 0 l) l /\ 0 <= fold_right Z.add 0 l.
Proof.
  induction 1 as [|x l Hx _ [IH1 IH2]]; [split; [constructor|cbn; lia]|].
  cbn [fold_right]. split; [|lia].
  constructor; [lia|].
  eapply List.Forall_impl; [|exact IH1]. cbv beta. intros g Hg. lia.
Qed.

Lemma marks_last (cv : list bool) :
  List.last (marks cv) 0 = Z.of_nat (length cv).
Proof.
  unfold marks. change (0 :: ?l ++ ?r) with ((0 :: l) ++ r).
  apply last_last.
Qed.

(** X13: the gap lies between 0 and the length of the vector, and within
    those bounds it is 0 for the empty vector only: for any vector with an
    entry, [gap_calculator] returns at least 1. *)
Theorem gap_calculator_bounds (cv : list bool) :
  exists gap,
    gap_calculator cv = Ret (Some gap)
    /\ 0 <= gap <= Z.of_nat (length cv)
    /\ (gap = 0 <-> cv = []).
Proof.
  exists (max_gap_spec cv). split; [apply gap_calculator_refines|].
  pose proof (marks_gaps_nonneg cv) as Hpos.
  pose proof (successive_gaps_sum (true_entries cv ++ [Z.of_nat (length cv)]) 0)
    as Hsum.
  change (0 :: true_entries cv ++ [Z.of_nat (length cv)]) with (marks cv)
    in Hsum.
  rewrite marks_last in Hsum.
  destruct (nonneg_le_sum _ Hpos) as [Hle _].
  assert (Hin : In (max_gap_spec cv) (successive_gaps (marks cv))).
  { apply fold_right_max_attained; [|exact Hpos].
    unfold marks. destruct (true_entries cv); discriminate. }
  rewrite List.Forall_forall in Hle, Hpos.
  pose proof (Hle _ Hin) as Hub. pose proof (Hpos _ Hin) as Hlb.
  split; [lia|]. split.
  - intros H0. destruct cv as [|b cv]; [reflexivity|exfalso].
    assert (Hall : Forall (fun g => g <= 0) (successive_gaps (marks (b :: cv)))).
    { rewrite <- H0. apply fold_right_max_upper. }
    assert (Hs : fold_right Z.add 0 (successive_gaps (marks (b :: cv))) <= 0).
    { revert Hall. generalize (successive_gaps (marks (b :: cv))).
      induction 1; cbn; lia. }
    cbn [length] in Hsum. lia.
  - intros ->. reflexivity.
Qed.

Lemma successive_gaps_app (l1 l2 : list Z) (x y : Z) :
  successive_gaps ((l1 ++ [x]) ++ y :: l2)
  = successive_gaps (l1 ++ [x]) ++ (y - x) :: successive_gaps (y :: l2).
Proof.
  induction l1 as [|a l1 IH]; [reflexivity|].
  destruct l1 as [|b l1].
  - cbn [app]. change (successive_gaps (a :: x :: y :: l2))
      with ((x - a) :: successive_gaps (([] ++ [x]) ++ y :: l2)).
    rewrite IH. reflexivity.
  - change (successive_gaps (((a :: b :: l1) ++ [x]) ++ y :: l2))
      with ((b - a) :: successive_gaps (((b :: l1) ++ [x]) ++ y :: l2)).
    rewrite IH. reflexivity.
Qed.

(** Putting a mark between two successive marks does not raise the largest
    gap. *)
Lemma max_gap_insert (l1 l2 : list Z) (x k y : Z) :
  x <= k <= y ->
  fold_right Z.max 0 (successive_gaps ((l1 ++ [x]) ++ k :: y :: l2))
  <= fold_right Z.max 0 (successive_gaps ((l1 ++ [x]) ++ y :: l2)).
Proof.
  intros Hk. rewrite !successive_gaps_app, !fold_right_max_app.
  change (successive_gaps (k :: y :: l2))
    with ((y - k) :: successive_gaps (y :: l2)).
  cbn [fold_right]. lia.
Qed.

(** X14: one more true entry never lengthens the largest gap.  Turning a
    false entry of a vector into a true one gives a gap that is at most the
    gap of the vector as it was. *)
Theorem gap_calculator_more_true_entries (u v : list bool) :
  exists gap gap',
    gap_calculator (u ++ false :: v) = Ret (Some gap)
    /\ gap_calculator (u ++ true :: v) = Ret (Some gap')
    /\ gap' <= gap.
Proof.
  exists (max_gap_spec (u ++ false :: v)), (max_gap_spec (u ++ true :: v)).
  split; [apply gap_calculator_refines|].
  split; [apply gap_calculator_refines|].
  unfold max_gap_spec, marks. rewrite <- !np_where_true_entries.
  unfold np_where. rewrite !where_from_app. cbn [where_from].
  rewrite !length_app. cbn [length].
  set (k := 0 + Z.of_nat (length u)).
  set (n := Z.of_nat (length u + S (length v))).
  pose proof (where_from_bounds u 0) as HA.
  pose proof (where_from_bounds v (k + 1)) as HB.
  assert (HL1 : exists l1 x, 0 :: where_from 0 u = l1 ++ [x] /\ x <= k).
  { destruct (exists_last (l := 0 :: where_from 0 u)) as (l1 & x & E);
      [discriminate|].
    exists l1, x. split; [exact E|].
    assert (Hin : In x (0 :: where_from 0 u))
      by (rewrite E; apply in_or_app; right; left; reflexivity).
    destruct Hin as [<-|Hin]; [subst k; lia|].
    rewrite List.Forall_forall in HA. specialize (HA _ Hin). subst k. lia. }
  destruct HL1 as (l1 & x & E1 & Hx).
  assert (HL2 : exists y l2, where_from (k + 1) v ++ [n] = y :: l2 /\ k <= y).
  { destruct (where_from (k + 1) v) as [|y l2] eqn:E.
    - exists n, []. split; [reflexivity|]. subst k n. lia.
    - exists y, (l2 ++ [n]). split; [reflexivity|].
      inversion HB; subst. lia. }
  destruct HL2 as (y & l2 & E2 & Hy).
  replace (0 :: (where_from 0 u ++ k :: where_from (k + 1) v) ++ [n])
    with ((l1 ++ [x]) ++ k :: y :: l2)
    by (rewrite <- E1, <- E2, <- app_assoc; reflexivity).
  replace (0 :: (where_from 0 u ++ where_from (k + 1) v) ++ [n])
    with ((l1 ++ [x]) ++ y :: l2)
    by (rewrite <- E1, <- E2, <- app_assoc; reflexivity).
  apply max_gap_insert. lia.
Qed.

End GapCalculatorMore.

(** ** init_orbit_poly: runs that do not return, and what is returned *)

Section OrbitMore.

Import GenericFunctions Notions.

Variable ecef : Type.
Variable get_position : Z -> result ecef.
Variable ecef_to_llh : ecef -> result (float * float * float).

Local Abbreviation orbit_step := (orbit_step ecef get_position ecef_to_llh).
Local Abbreviation orbit_loop := (orbit_loop ecef get_position ecef_to_llh).
Local Abbreviation init_orbit_poly :=
  (init_orbit_poly ecef get_position ecef_to_llh).

(** X15: a walk that cannot reach [T2] ends in [OverflowError].  When the
    interval is not zero and [T2] is not [T1] plus a whole number of
    intervals, the loop runs until a step leaves the range of [datetime]
    (or the interval is too large for a [timedelta]) and the function raises
    [OverflowError]; it does not run forever. *)
Theorem init_orbit_poly_overflows (T1 T2 interval : Z) :
  (forall t, exists e llh, get_position t = Ret e /\ ecef_to_llh e = Ret llh) ->
  interval <> 0 ->
  0 <= T1 <= datetime_max ->
  (forall k : nat, T2 <> T1 + Z.of_nat k * (interval * 60000000)) ->
  exists fuel, init_orbit_poly fuel T1 T2 interval = Some (Raise OverflowError).
Proof.
  intros Hpos Hi H1 Hne.
  apply (orbit_loop_overflows ecef get_position ecef_to_llh
           (S (Z.to_nat (if (0 <? interval)%Z
                         then (datetime_max - T1)%Z else T1))));
    auto.
Qed.

(** X16: with an interval of zero the loop stands still.  If [T1] is [T2]
    the function returns two empty lists at once, whatever the predictor
    does; if not, every pass leaves [T1] where it was and the loop is still
    running after any number of passes. *)
Theorem init_orbit_poly_zero_interval (T1 T2 : Z) (fuel : nat) :
  (T1 = T2 -> forall interval,
      init_orbit_poly fuel T1 T2 interval = Some (Ret ([], [])))
  /\ ((forall t, exists e llh, get_position t = Ret e /\ ecef_to_llh e = Ret llh) ->
      0 <= T1 <= datetime_max ->
      T1 <> T2 ->
      init_orbit_poly fuel T1 T2 0 = None).
Proof.
  split.
  - intros -> interval. unfold GenericFunctions.init_orbit_poly.
    destruct fuel; cbn [GenericFunctions.orbit_loop]; rewrite Z.eqb_refl;
      reflexivity.
  - intros Hpos H1 Hne. unfold GenericFunctions.init_orbit_poly.
    generalize (@nil Polygon) as polys, (@nil Z) as days.
    apply Z.eqb_neq in Hne.
    induction fuel as [|fuel IH]; intros polys days;
      cbn [GenericFunctions.orbit_loop]; rewrite Hne; [reflexivity|].
    destruct (orbit_step_ok ecef get_position ecef_to_llh T1 0 Hpos)
      as (p & Hp); [unfold datetime_max in *; lia..|].
    rewrite Hp. replace (T1 + 0 * 60000000) with T1 by lia. apply IH.
Qed.

Lemma orbit_step_coverage (ground : Z -> float * float * float)
    (T1 interval : Z) (p : Polygon) (T1' : Z) :
  (forall t, get_position t ≫= ecef_to_llh = Ret (ground t)) ->
  orbit_step T1 interval = Ret (p, T1') ->
  p = coverage (ground T1) (ground (T1 + interval * 60000000)).
Proof.
  intros Hg. unfold GenericFunctions.orbit_step.
  pose proof (Hg T1) as G1.
  destruct (get_position T1) as [e1|]; cbn in G1 |- *; [|discriminate].
  rewrite G1. destruct (ground T1) as [[lat1 lon1] h1]. cbn.
  destruct (timedelta_minutes interval) as [d|] eqn:Ed; cbn; [|discriminate].
  destruct (datetime_add T1 d) as [st|] eqn:Est; cbn; [|discriminate].
  apply timedelta_minutes_inv in Ed. apply datetime_add_inv in Est.
  destruct Est as [-> _]. subst d.
  pose proof (Hg (T1 + interval * 60000000)) as G2.
  destruct (get_position (T1 + interval * 60000000)) as [e2|];
    cbn in G2 |- *; [|discriminate].
  rewrite G2. destruct (ground (T1 + interval * 60000000)) as [[lat2 lon2] h2].
  cbn. intros [= <- _]. reflexivity.
Qed.

Lemma orbit_loop_coverage (ground : Z -> float * float * float) (fuel : nat) :
  (forall t, get_position t ≫= ecef_to_llh = Ret (ground t)) ->
  forall T1 T2 interval polys days days' polys',
    orbit_loop fuel T1 T2 interval polys days = Some (Ret (days', polys')) ->
    polys'
    = polys
      ++ map (fun t => coverage (ground t) (ground (t + interval * 60000000)))
             (skipn (length days) days').
Proof.
  intros Hg. induction fuel as [|fuel IH];
    intros T1 T2 interval polys days days' polys';
    cbn [GenericFunctions.orbit_loop]; destruct (T1 =? T2).
  1,3: intros [= <- <-]; rewrite skipn_all, app_nil_r; reflexivity.
  - discriminate.
  - destruct (orbit_step T1 interval) as [[p T1']|] eqn:Es; [|discriminate].
    intros Hr. pose proof Hr as Hr'.
    apply orbit_loop_returns_inv in Hr'.
    destruct Hr' as (k & _ & _ & _ & _ & Hd & _).
    apply IH in Hr. rewrite Hr, <- app_assoc. f_equal.
    rewrite Hd, drop_app_length, <- app_assoc, drop_app_length.
    cbn [app map]. f_equal.
    apply (orbit_step_coverage ground) in Es; [exact Es|exact Hg].
Qed.

(** X17: what the polygons are.  When the predictor and the conversion give
    a ground point for every time, the polygon returned for a timestamp is
    the one drawn between the ground point at that time and the ground
    point one interval later; the far corners of a polygon are thus drawn
    from the ground point the next polygon starts from. *)
Theorem init_orbit_poly_polygons (ground : Z -> float * float * float)
    (fuel : nat) (T1 T2 interval : Z) (day_list : list Z)
    (polygon_list : list Polygon) :
  (forall t, get_position t ≫= ecef_to_llh = Ret (ground t)) ->
  init_orbit_poly fuel T1 T2 interval = Some (Ret (day_list, polygon_list)) ->
  polygon_list
  = map (fun t => coverage (ground t) (ground (t + interval * 60000000)))
        day_list.
Proof.
  intros Hg Hr. apply (orbit_loop_coverage ground fuel Hg) in Hr. exact Hr.
Qed.

End OrbitMore.

(** ** The order of floats *)

Section FloatTotalOrder.

Import Notions.

Lemma SFcompare_key (x y : spec_float) :
  SFcompare x y
  = match float_key x, float_key y with
    | Some a, Some b => Some (key_compare a b)
    | _, _ => None
    end.
Proof.
  destruct x as [sx|sx| |sx mx ex], y as [sy|sy| |sy my ey];
    try destruct sx; try destruct sy; try reflexivity;
    cbn [SFcompare float_key]; unfold key_compare; cbn [fst snd].
  change (-1 ?= -1) with Eq. cbn match.
  rewrite Z.compare_opp. rewrite (Z.compare_antisym ex ey).
  destruct (ex ?= ey); reflexivity.
Qed.

Lemma key_compare_refl (a : Z * Z * Z) : key_compare a a = Eq.
Proof. unfold key_compare. rewrite !Z.compare_refl. reflexivity. Qed.

Lemma key_compare_lt (a b : Z * Z * Z) :
  key_compare a b = Lt
  <-> a.1.1 < b.1.1
      \/ (a.1.1 = b.1.1 /\ (a.1.2 < b.1.2 \/ (a.1.2 = b.1.2 /\ a.2 < b.2))).
Proof.
  unfold key_compare.
  destruct (Z.compare_spec a.1.1 b.1.1), (Z.compare_spec a.1.2 b.1.2),
    (Z.compare_spec a.2 b.2); split; intros Hyp; try discriminate;
    try reflexivity; lia.
Qed.

Lemma key_compare_gt (a b : Z * Z * Z) :
  key_compare a b = Gt <-> key_compare b a = Lt.
Proof.
  rewrite key_compare_lt. unfold key_compare.
  destruct (Z.compare_spec a.1.1 b.1.1), (Z.compare_spec a.1.2 b.1.2),
    (Z.compare_spec a.2 b.2); split; intros Hyp; try discriminate;
    try reflexivity; lia.
Qed.

Lemma is_nan_key (x : float) :
  PrimFloat.is_nan x = false <-> is_Some (float_key (Prim2SF x)).
Proof.
  unfold PrimFloat.is_nan. rewrite FloatAxioms.eqb_spec. unfold SFeqb.
  rewrite SFcompare_key.
  destruct (float_key (Prim2SF x)) as [a|].
  - rewrite key_compare_refl. split; eauto.
  - split; [discriminate|]. intros [? H]. discriminate.
Qed.

Lemma leb_key (x y : float) :
  PrimFloat.leb x y = true
  <-> exists a b, float_key (Prim2SF x) = Some a
                  /\ float_key (Prim2SF y) = Some b
                  /\ key_compare a b <> Gt.
Proof.
  rewrite leb_spec. unfold SFleb. rewrite SFcompare_key.
  destruct (float_key (Prim2SF x)) as [a|], (float_key (Prim2SF y)) as [b|];
    try (split; [discriminate|intros (? & ? & ? & ? & ?); discriminate]).
  destruct (key_compare a b) eqn:E; split; intros H;
    try discriminate; try reflexivity.
  - exists a, b. rewrite E. repeat split; discriminate.
  - exists a, b. rewrite E. repeat split; discriminate.
  - destruct H as (a' & b' & [= <-] & [= <-] & H). congruence.
Qed.

Lemma ltb_key (x y : float) :
  PrimFloat.ltb x y = true
  <-> exists a b, float_key (Prim2SF x) = Some a
                  /\ float_key (Prim2SF y) = Some b
                  /\ key_compare a b = Lt.
Proof.
  rewrite ltb_spec. unfold SFltb. rewrite SFcompare_key.
  destruct (float_key (Prim2SF x)) as [a|], (float_key (Prim2SF y)) as [b|];
    try (split; [discriminate|intros (? & ? & ? & ? & ?); discriminate]).
  destruct (key_compare a b) eqn:E; split; intros H;
    try discriminate; try reflexivity.
  - destruct H as (a' & b' & [= <-] & [= <-] & H). congruence.
  - exists a, b. auto.
  - destruct H as (a' & b' & [= <-] & [= <-] & H). congruence.
Qed.

Lemma key_le_iff (a b : Z * Z * Z) :
  key_compare a b <> Gt <-> ~ key_compare b a = Lt.
Proof. rewrite <- key_compare_gt. reflexivity. Qed.

(** Two floats that are not NaN are comparable. *)
Lemma float_total (x y : float) :
  PrimFloat.is_nan x = false -> PrimFloat.is_nan y = false ->
  PrimFloat.leb x y = false -> PrimFloat.ltb y x = true.
Proof.
  intros Hx Hy Hle. apply is_nan_key in Hx, Hy.
  destruct Hx as [a Ha], Hy as [b Hb].
  apply ltb_key. exists b, a. repeat split; auto.
  apply key_compare_gt.
  destruct (key_compare a b) eqn:E; [| |reflexivity]; exfalso;
    assert (H : PrimFloat.leb x y = true)
      by (apply leb_key; exists a, b; rewrite E; repeat split;
          auto; discriminate);
    congruence.
Qed.

Lemma float_lt_le_trans (x y z : float) :
  PrimFloat.ltb x y = true -> PrimFloat.leb y z = true ->
  PrimFloat.ltb x z = true.
Proof.
  rewrite !ltb_key, leb_key.
  intros (a & b & Ha & Hb & Hab) (b' & c & Hb' & Hc & Hbc).
  rewrite Hb in Hb'. injection Hb' as <-.
  exists a, c. repeat split; auto.
  apply key_le_iff in Hbc. rewrite key_compare_lt in *. lia.
Qed.

Lemma float_le_trans (x y z : float) :
  PrimFloat.leb x y = true -> PrimFloat.leb y z = true ->
  PrimFloat.leb x z = true.
Proof.
  rewrite !leb_key.
  intros (a & b & Ha & Hb & Hab) (b' & c & Hb' & Hc & Hbc).
  rewrite Hb in Hb'. injection Hb' as <-.
  exists a, c. repeat split; auto.
  apply key_le_iff. apply key_le_iff in Hab, Hbc.
  rewrite key_compare_lt in *. lia.
Qed.

Lemma float_lt_le (x y : float) :
  PrimFloat.ltb x y = true -> PrimFloat.leb x y = true.
Proof.
  rewrite ltb_key, leb_key. intros (a & b & Ha & Hb & Hab).
  exists a, b. rewrite Hab. repeat split; auto; discriminate.
Qed.

Lemma float_le_refl (x : float) :
  PrimFloat.is_nan x = false -> PrimFloat.leb x x = true.
Proof.
  intros Hx. apply is_nan_key in Hx. destruct Hx as [a Ha].
  apply leb_key. exists a, a. rewrite key_compare_refl.
  repeat split; auto; discriminate.
Qed.

End FloatTotalOrder.

(** ** geo_idx *)

Section GeoIdx.

Import Geo.

Lemma argmin_from_bound (ip : list float) :
  forall mp min_ind i,
    (min_ind < i)%nat -> (argmin_from mp min_ind i ip < i + length ip)%nat.
Proof.
  induction ip as [|x ip IH]; intros mp min_ind i Hi; cbn [argmin_from length];
    [lia|].
  destruct (negb (PrimFloat.leb mp x)).
  - destruct (PrimFloat.is_nan x); [lia|].
    specialize (IH x i (S i) ltac:(lia)). lia.
  - specialize (IH mp min_ind (S i) ltac:(lia)). lia.
Qed.

Lemma leb_nan_r (mp x : float) :
  PrimFloat.is_nan x = true -> PrimFloat.leb mp x = false.
Proof.
  intros Hx. destruct (PrimFloat.leb mp x) eqn:E; [|reflexivity].
  apply leb_key in E. destruct E as (a & b & _ & Hb & _).
  assert (H : PrimFloat.is_nan x = false) by (apply is_nan_key; eauto).
  congruence.
Qed.

(** The scan keeps the least entry seen so far, and the first of its
    occurrences. *)
Lemma argmin_from_least (ds : list float) :
  Forall (fun d => PrimFloat.is_nan d = false) ds ->
  forall ip pre mp min_ind,
    ds = pre ++ ip ->
    nth_error ds min_ind = Some mp ->
    (forall j dj, (j < length pre)%nat -> nth_error ds j = Some dj ->
                  PrimFloat.leb mp dj = true) ->
    (forall j dj, (j < min_ind)%nat -> nth_error ds j = Some dj ->
                  PrimFloat.ltb mp dj = true) ->
    exists dr,
      nth_error ds (argmin_from mp min_ind (length pre) ip) = Some dr
      /\ (forall j dj, nth_error ds j = Some dj -> PrimFloat.leb dr dj = true)
      /\ (forall j dj, (j < argmin_from mp min_ind (length pre) ip)%nat ->
                       nth_error ds j = Some dj -> PrimFloat.ltb dr dj = true).
Proof.
  intros Hnan. rewrite List.Forall_forall in Hnan.
  induction ip as [|x ip IH]; intros pre mp min_ind Hds Hmp Hle Hlt.
  - cbn [argmin_from]. exists mp. split; [exact Hmp|]. split; [|exact Hlt].
    intros j dj Hj. apply (Hle j); [|exact Hj].
    rewrite app_nil_r in Hds. subst ds.
    apply nth_error_Some. congruence.
  - cbn [argmin_from].
    assert (Hx : nth_error ds (length pre) = Some x).
    { subst ds. rewrite nth_error_app2 by lia.
      rewrite Nat.sub_diag. reflexivity. }
    assert (Hds' : ds = (pre ++ [x]) ++ ip)
      by (rewrite <- app_assoc; exact Hds).
    assert (Hlen : length (pre ++ [x]) = S (length pre))
      by (rewrite length_app; cbn; lia).
    assert (Nx : PrimFloat.is_nan x = false)
      by (apply Hnan; eapply nth_error_In; exact Hx).
    assert (Nmp : PrimFloat.is_nan mp = false)
      by (apply Hnan; eapply nth_error_In; exact Hmp).
    destruct (PrimFloat.leb mp x) eqn:E; cbn [negb].
    + rewrite <- Hlen. apply IH; auto.
      intros j dj Hj Hdj. rewrite Hlen in Hj.
      destruct (Nat.eq_dec j (length pre)) as [->|Hne].
      * rewrite Hx in Hdj. injection Hdj as <-. exact E.
      * apply (Hle j); [lia|exact Hdj].
    + rewrite Nx. rewrite <- Hlen.
      pose proof (float_total _ _ Nmp Nx E) as Hxmp.
      apply IH; auto.
      * intros j dj Hj Hdj. rewrite Hlen in Hj.
        destruct (Nat.eq_dec j (length pre)) as [->|Hne].
        -- rewrite Hx in Hdj. injection Hdj as <-.
           apply float_le_refl, Nx.
        -- apply float_lt_le. eapply float_lt_le_trans; [exact Hxmp|].
           apply (Hle j); [lia|exact Hdj].
      * intros j dj Hj Hdj.
        eapply float_lt_le_trans; [exact Hxmp|].
        apply (Hle j); [lia|exact Hdj].
Qed.

Lemma argmin_from_first_nan (pre post : list float) (x : float) :
  Forall (fun d => PrimFloat.is_nan d = false) pre ->
  PrimFloat.is_nan x = true ->
  forall mp min_ind i,
    argmin_from mp min_ind i (pre ++ x :: post) = (i + length pre)%nat.
Proof.
  intros Hpre Hx. induction Hpre as [|y pre Hy _ IH]; intros mp min_ind i.
  - cbn [app argmin_from length]. rewrite (leb_nan_r _ _ Hx), Hx. cbn. lia.
  - cbn [app argmin_from length]. rewrite Hy.
    destruct (negb (PrimFloat.leb mp y)); rewrite IH; lia.
Qed.

(** X18: [geo_idx] answers with a position of the array.  On an empty array
    it raises [ValueError]; on any other it returns an index below the
    length of the array. *)
Theorem geo_idx_in_range (dd : float) :
  geo_idx dd [] = Raise ValueError
  /\ forall x dd_array,
      exists i, geo_idx dd (x :: dd_array) = Ret i
                /\ (i < length (x :: dd_array))%nat.
Proof.
  split; [reflexivity|]. intros x dd_array.
  unfold geo_idx. cbn [map np_argmin].
  destruct (PrimFloat.is_nan _).
  - exists 0%nat. split; [reflexivity|cbn; lia].
  - eexists. split; [reflexivity|].
    match goal with |- (argmin_from ?mp 0 1 ?ip < _)%nat =>
      pose proof (argmin_from_bound ip mp 0%nat 1%nat ltac:(lia)) as H end.
    rewrite length_map in H. cbn [length]. lia.
Qed.

(** X19: [geo_idx] finds the closest entry, and the first of the closest.
    When no distance [|x - dd|] is NaN, the entry at the returned index is
    at a distance not greater than that of any entry, and strictly less
    than that of every entry before it. *)
Theorem geo_idx_closest (dd : float) (dd_array : list float) (i : nat) :
  Forall (fun x => PrimFloat.is_nan (PrimFloat.abs (x - dd)) = false) dd_array ->
  geo_idx dd dd_array = Ret i ->
  exists xi,
    nth_error dd_array i = Some xi
    /\ forall j xj,
        nth_error dd_array j = Some xj ->
        PrimFloat.leb (PrimFloat.abs (xi - dd)) (PrimFloat.abs (xj - dd)) = true
        /\ ((j < i)%nat ->
            PrimFloat.ltb (PrimFloat.abs (xi - dd)) (PrimFloat.abs (xj - dd))
            = true).
Proof.
  intros Hnan. unfold geo_idx.
  set (dist := fun x => PrimFloat.abs (x - dd)) in *.
  assert (Hds : Forall (fun d => PrimFloat.is_nan d = false) (map dist dd_array)).
  { apply List.Forall_forall. intros d Hd.
    apply in_map_iff in Hd. destruct Hd as (x & <- & Hx).
    revert x Hx. apply List.Forall_forall. exact Hnan. }
  destruct dd_array as [|x0 rest]; [discriminate|].
  cbn [map np_argmin].
  inversion Hnan as [|? ? N0 _]; subst.
  change (PrimFloat.is_nan (dist x0) = false) in N0.
  rewrite N0. intros [= <-].
  destruct (argmin_from_least (map dist (x0 :: rest)) Hds
              (map dist rest) [dist x0] (dist x0) 0%nat)
    as (dr & Hr & Hle & Hlt).
  - reflexivity.
  - reflexivity.
  - intros j dj Hj Hdj. cbn [length] in Hj.
    destruct j; [|lia]. cbn in Hdj. injection Hdj as <-.
    apply float_le_refl, N0.
  - intros j dj Hj. lia.
  - cbn [length] in Hr, Hlt.
    rewrite nth_error_map in Hr.
    destruct (nth_error (x0 :: rest) (argmin_from (dist x0) 0 1 (map dist rest)))
      as [xi|] eqn:Exi; [|discriminate].
    cbn in Hr. injection Hr as <-.
    exists xi. split; [reflexivity|].
    intros j xj Hj.
    assert (Hdj : nth_error (map dist (x0 :: rest)) j = Some (dist xj))
      by (rewrite nth_error_map, Hj; reflexivity).
    split; [apply (Hle j), Hdj|]. intros Hji. apply (Hlt j); assumption.
Qed.

(** X20: a distance that is NaN wins.  If some distance [|x - dd|] is NaN
    (a NaN entry, or a NaN [dd], which makes every distance NaN),
    [geo_idx] returns the index of the first such entry, whatever the other
    distances are. *)
Theorem geo_idx_first_nan (dd : float) (pre post : list float) (x : float) :
  Forall (fun y => PrimFloat.is_nan (PrimFloat.abs (y - dd)) = false) pre ->
  PrimFloat.is_nan (PrimFloat.abs (x - dd)) = true ->
  geo_idx dd (pre ++ x :: post) = Ret (length pre).
Proof.
  intros Hpre Hx. unfold geo_idx. rewrite map_app. cbn [map].
  destruct pre as [|y pre]; cbn [app map np_argmin]; [rewrite Hx; reflexivity|].
  inversion Hpre as [|? ? Hy Hpre']; subst. rewrite Hy.
  rewrite argmin_from_first_nan; [|
    apply List.Forall_forall; intros d Hd; apply in_map_iff in Hd;
    destruct Hd as (z & <- & Hz); revert z Hz; apply List.Forall_forall;
    exact Hpre' | exact Hx].
  rewrite length_map. reflexivity.
Qed.

End GeoIdx.

(** ** quick_cal_daylight *)

Section DaylightFacts.

Import Daylight.

Variable D C : Type.
Variable str : C -> string.
Variable previous_rising : Observer D -> result (Z * Z).
Variable next_setting : Observer D -> result (Z * Z).

Local Abbreviation quick_cal_daylight :=
  (quick_cal_daylight D C str previous_rising next_setting).

(** The two sums, on every hour and minute of a day. *)
Lemma sunrise_values :
  forallb (fun h =>
    forallb (fun m =>
      let sr := (float_of_int (Z.of_nat h - 7)
                 + float_of_int (Z.of_nat m) / 100)%float in
      PrimFloat.leb (-7)%float sr && PrimFloat.ltb sr 17%float
      && Bool.eqb (PrimFloat.ltb sr 0%float) (h <? 7)%nat)
      (seq 0 60)) (seq 0 24) = true.
Proof. vm_compute. reflexivity. Qed.

Lemma sunset_values :
  forallb (fun h =>
    forallb (fun m =>
      let ss := (float_of_int (Z.of_nat h + 17)
                 + float_of_int (Z.of_nat m) / 100)%float in
      PrimFloat.leb 17%float ss && PrimFloat.ltb ss 41%float)
      (seq 0 60)) (seq 0 24) = true.
Proof. vm_compute. reflexivity. Qed.

Lemma in_day (h m : Z) :
  0 <= h < 24 -> 0 <= m < 60 ->
  In (Z.to_nat h) (seq 0 24) /\ In (Z.to_nat m) (seq 0 60)
  /\ Z.of_nat (Z.to_nat h) = h /\ Z.of_nat (Z.to_nat m) = m.
Proof. intros Hh Hm. rewrite !in_seq. lia. Qed.

(** X21: what the two numbers can be.  For any hour and minute that a
    datetime can hold, the sunrise value lies from -7 up to 17 and the
    sunset value from 17 up to 41, so the sunrise value is always below the
    sunset value; the sunrise value is negative exactly when the sun rose
    before 7 o'clock UTC.  Neither value is brought back into the range of
    a day. *)
Theorem quick_cal_daylight_ranges (date : D) (lat lon : C) (sr ss : float) :
  (forall obs h m, previous_rising obs = Ret (h, m) ->
                   0 <= h < 24 /\ 0 <= m < 60) ->
  (forall obs h m, next_setting obs = Ret (h, m) ->
                   0 <= h < 24 /\ 0 <= m < 60) ->
  quick_cal_daylight date lat lon = Ret (sr, ss) ->
  PrimFloat.leb (-7)%float sr = true
  /\ PrimFloat.ltb sr 17%float = true
  /\ PrimFloat.leb 17%float ss = true
  /\ PrimFloat.ltb ss 41%float = true
  /\ PrimFloat.ltb sr ss = true
  /\ exists obs h m,
      previous_rising obs = Ret (h, m)
      /\ (PrimFloat.ltb sr 0%float = true <-> h < 7).
Proof.
  intros Hrise Hset. unfold Daylight.quick_cal_daylight.
  set (obs := {| pressure := 0; horizon := "-6"; date := date;
                 lat := str lat; lon := str lon |}).
  destruct (previous_rising obs) as [[h m]|] eqn:Er; [|discriminate].
  destruct (next_setting obs) as [[h' m']|] eqn:Es; [|discriminate].
  cbn. intros [= <- <-].
  destruct (Hrise _ _ _ Er) as [Hh Hm].
  destruct (Hset _ _ _ Es) as [Hh' Hm'].
  destruct (in_day h m Hh Hm) as (Ih & Im & Eh & Em).
  destruct (in_day h' m' Hh' Hm') as (Ih' & Im' & Eh' & Em').
  pose proof sunrise_values as R. pose proof sunset_values as S.
  rewrite forallb_forall in R, S.
  specialize (R _ Ih). specialize (S _ Ih').
  rewrite forallb_forall in R, S.
  specialize (R _ Im). specialize (S _ Im').
  cbv zeta in R, S. rewrite Eh, Em in R. rewrite Eh', Em' in S.
  apply andb_prop in R. destruct R as [R R3].
  apply andb_prop in R. destruct R as [R1 R2].
  apply andb_prop in S. destruct S as [S1 S2].
  split; [exact R1|]. split; [exact R2|]. split; [exact S1|].
  split; [exact S2|]. split.
  - eapply float_lt_le_trans; [exact R2|exact S1].
  - exists obs, h, m. split; [exact Er|].
    apply Bool.eqb_prop in R3. rewrite R3.
    rewrite Nat.ltb_lt. lia.
Qed.

End DaylightFacts.

(** ** ecef_to_llh *)

Section EcefFacts.

Import Ecef.

Variable m_sin m_cos : float -> outcome float.
Variable m_atan : float -> float.
Variable m_atan2 : float -> float -> float.
Variable float_pow : float -> float -> outcome float.

Local Abbreviation ecef_to_llh :=
  (ecef_to_llh m_sin m_cos m_atan m_atan2 float_pow).

Lemma outcome_bind_value {A B : Type} (m : outcome A) (k : A -> outcome B)
    (v : B) :
  m ≫= k = Value v -> exists x, m = Value x /\ k x = Value v.
Proof.
  destruct m as [x|e]; cbn; [|discriminate]. intros H. exists x. auto.
Qed.

(** X22: a point on the polar axis has no geodetic coordinates here.  When
    the squares of x and y are both zero (x and y zero, or too small for
    their squares to be told from zero), the distance to the axis is zero
    and the first division raises [ZeroDivisionError], whatever z is. *)
Theorem ecef_to_llh_polar_axis (x y z : float) (rest : list float) :
  float_pow x 2%float = Value 0%float ->
  float_pow y 2%float = Value 0%float ->
  ecef_to_llh (x :: y :: z :: rest) = Error ZeroDivisionError.
Proof.
  intros Hx Hy. unfold Ecef.ecef_to_llh. cbn [item nth_error].
  cbn. rewrite Hx. cbn. rewrite Hy. reflexivity.
Qed.

(** X23: the longitude comes from x and y alone.  Whenever coordinates are
    returned, the longitude is [atan2(y, x)] in degrees; two points that
    differ in z only get the same longitude. *)
Theorem ecef_to_llh_longitude (x y z z' : float) (lat lon h lat' lon' h' : float) :
  ecef_to_llh [x; y; z] = Value (lat, lon, h) ->
  lon = degrees (m_atan2 y x)
  /\ (ecef_to_llh [x; y; z'] = Value (lat', lon', h') -> lon' = lon).
Proof.
  assert (H : forall w la lo hh,
             ecef_to_llh [x; y; w] = Value (la, lo, hh) ->
             lo = degrees (m_atan2 y x)).
  { intros w la lo hh. unfold Ecef.ecef_to_llh. cbn [item nth_error].
    intros H.
    repeat (apply outcome_bind_value in H;
            let E := fresh "E" in
            destruct H as (? & E & H); try (injection E as <-)).
    unfold mret, outcome_ret in H. injection H as _ <- _. reflexivity. }
  intros H1. split; [eapply H, H1|].
  intros H2. rewrite (H _ _ _ _ H1), (H _ _ _ _ H2). reflexivity.
Qed.

(** X24: fewer than three coordinates never give a result.  An empty
    sequence raises [IndexError] at once; with one or two coordinates the
    function raises on the way, at the latest when it reads the missing
    one. *)
Theorem ecef_to_llh_short (ecef_km : list float) :
  (length ecef_km < 3)%nat ->
  (forall llh, ecef_to_llh ecef_km <> Value llh)
  /\ (ecef_km = [] -> ecef_to_llh ecef_km = Error (Other IndexError)).
Proof.
  intros Hlen. split; [|intros ->; reflexivity].
  intros llh H. unfold Ecef.ecef_to_llh in H.
  destruct ecef_km as [|x [|y [|z t]]]; cbn in Hlen; try lia;
    cbn [item nth_error] in H;
    repeat (apply outcome_bind_value in H;
            let E := fresh "E" in
            destruct H as (? & E & H); try discriminate E).
Qed.

End EcefFacts.

(** ** Worked examples for the further properties *)

Section MoreWorkedExamples.

Import Distributions GenericFunctions.

Local Abbreviation run := (Examples.run_loader).

(** The draws 1 and 2 under a NaN bound: both are taken, none is returned. *)
Lemma leak_rvs_nan_bound_never_returns_witness :
  leak_rvs Examples.gas_convert [1%float; 2%float] (Some nan) None = ([], None).
Proof.
  exact (proj2 (leak_rvs_nan_bound_never_returns Examples.gas_convert)
               [1%float; 2%float]).
Defined.

(** A list that starts with "Gram" is passed over, whatever follows; the
    one-entry list "kilogram" raises on the first draw. *)
Lemma leak_rvs_conversion_list_shapes_witness :
  leak_rvs Examples.gas_convert [5%float] (Some 3%float)
    (Some ["Gram"; "per"; "fortnight"])
  = leak_rvs Examples.gas_convert [5%float] (Some 3%float) None
  /\ leak_rvs Examples.gas_convert [8%float; 5%float] (Some 3%float)
       (Some ["kilogram"])
     = ([], Some (Raise IndexError)).
Proof.
  pose proof (leak_rvs_conversion_list_shapes Examples.gas_convert
                [5%float] (Some 3%float)) as (_ & Hgram & Hone & _).
  split.
  - exact (Hgram "Gram" ["per"; "fortnight"] eq_refl).
  - exact (Hone "kilogram" 8%float eq_refl).
Defined.

(** The draws 8 and 5 are enough; a third draw stays in the source. *)
Lemma leak_rvs_takes_what_it_needs_witness :
  leak_rvs Examples.gas_convert ([8%float; 5%float] ++ [7%float])
    (Some 3%float) (Some ["kilogram"; "hour"])
  = ([EGasConvert 8%float "kilogram" "hour";
      EGasConvert 5%float "kilogram" "hour"],
     Some (Ret (2.5%float, [] ++ [7%float]))).
Proof.
  exact (leak_rvs_takes_what_it_needs Examples.gas_convert
           [8%float; 5%float] [7%float] (Some 3%float)
           (Some ["kilogram"; "hour"]) _ 2.5%float [] eq_refl).
Defined.

(** A family the stand-in for scipy does not have, and a number for a
    family. *)
Lemma fit_dist_family_first_witness :
  fit_dist Examples.scipy_stats Examples.dist_fit Examples.json_loads
    (Some [1.5%float]) (VStr "weibull_min") (VInt 0) VNone VNone
  = ([], Raise (AttributeError "weibull_min"))
  /\ fit_dist Examples.scipy_stats Examples.dist_fit Examples.json_loads
       (Some [1.5%float]) (VInt 3) (VInt 0) VNone VNone
     = ([], Raise TypeError).
Proof.
  pose proof (fit_dist_family_first Examples.scipy_stats Examples.dist_fit
                Examples.json_loads (Some [1.5%float]) (VInt 0) VNone VNone)
    as [Hname Hother].
  split.
  - exact (Hname "weibull_min" eq_refl).
  - apply Hother. intros name. discriminate.
Defined.

(** The fitted lognorm is built on the one-entry tuple of its shape; a fit
    that returns a single number raises [IndexError]. *)
Lemma fit_dist_empirical_result_witness :
  (Examples.scipy_stats "lognorm" = Some 1%nat
   /\ exists shapes l sc,
       (fit_samples Examples.dist_fit "lognorm" [1.5%float] (VInt 0)).2
       = Ret (shapes ++ [l; sc])
       /\ VFrozen "lognorm" [VTuple [VFloat 0.5%float]] (VTuple [VInt 0])
            (VFloat 2%float)
          = VFrozen "lognorm" [VTuple shapes] (VTuple [l]) sc)
  /\ (fit_dist Examples.scipy_stats MoreExamples.short_fit Examples.json_loads
        (Some [1.5%float]) (VStr "lognorm") (VInt 0) VNone VNone).2
     = Raise IndexError.
Proof.
  split.
  - exact (proj1 (fit_dist_empirical_result Examples.scipy_stats
                    Examples.dist_fit Examples.json_loads [1.5%float]
                    "lognorm" (VInt 0) VNone VNone)
                 _ eq_refl).
  - apply (proj2 (fit_dist_empirical_result Examples.scipy_stats
                    MoreExamples.short_fit Examples.json_loads [1.5%float]
                    "lognorm" (VInt 0) VNone VNone)
                 [VFloat 1%float]).
    + exists 1%nat. reflexivity.
    + reflexivity.
    + simpl. lia.
Defined.

(** The two-parameter family beta: a shape that does not decode, a shape of
    two items and a shape of one. *)
Lemma fit_dist_parametric_outcome_witness :
  (fit_dist Examples.scipy_stats Examples.dist_fit Examples.json_loads
     None (VStr "beta") (VInt 0) (VStr "[2, 5]") (VFloat 1%float)).1 = []
  /\ (fit_dist Examples.scipy_stats Examples.dist_fit Examples.json_loads
        None (VStr "beta") (VInt 0) (VStr "two") (VFloat 1%float)).2
     = Raise ValueError
  /\ (fit_dist Examples.scipy_stats Examples.dist_fit Examples.json_loads
        None (VStr "beta") (VInt 0) (VStr "[2, 5]") (VFloat 1%float)).2
     = Ret (VFrozen "beta" [VInt 2; VInt 5] (VInt 0) (VFloat 1%float))
  /\ (fit_dist Examples.scipy_stats Examples.dist_fit Examples.json_loads
        None (VStr "beta") (VInt 0) (VInt 2) (VFloat 1%float)).2
     = Raise TypeError.
Proof.
  split; [|split; [|split]].
  - exact (proj1 (fit_dist_parametric_outcome Examples.scipy_stats
                    Examples.dist_fit Examples.json_loads "beta" 2%nat
                    (VInt 0) (VStr "[2, 5]") (VFloat 1%float) eq_refl)).
  - exact (proj1 (proj2 (proj2
             (fit_dist_parametric_outcome Examples.scipy_stats
                Examples.dist_fit Examples.json_loads "beta" 2%nat
                (VInt 0) (VStr "two") (VFloat 1%float) eq_refl)))
             "two" ValueError eq_refl eq_refl).
  - exact (proj2 (proj2 (proj2
             (fit_dist_parametric_outcome Examples.scipy_stats
                Examples.dist_fit Examples.json_loads "beta" 2%nat
                (VInt 0) (VStr "[2, 5]") (VFloat 1%float) eq_refl)))
             [VInt 2; VInt 5] eq_refl).
  - exact (proj2 (proj2 (proj2
             (fit_dist_parametric_outcome Examples.scipy_stats
                Examples.dist_fit Examples.json_loads "beta" 2%nat
                (VInt 0) (VInt 2) (VFloat 1%float) eq_refl)))
             [VInt 2] eq_refl).
Defined.

(** The example program after its run: the same two subtypes, and the
    valve still has the [dist_sigma] it was configured with. *)
Lemma unpackage_dist_keeps_witness :
  map fst (subtypes (run Examples.facility "inputs").1.1) = ["valve"; "flange"]
  /\ MoreExamples.loaded_valve !! "dist_sigma" = Some (VFloat 1.5%float).
Proof.
  pose proof (unpackage_dist_keeps Examples.scipy_stats Examples.dist_fit
                Examples.json_loads Examples.np_exp Examples.read_first_column
                Examples.facility
                (run Examples.facility "inputs").1.1 "inputs"
                (run Examples.facility "inputs").1.2
                (run Examples.facility "inputs").2) as Hkeeps.
  destruct Hkeeps as [Hfst Hkey]; [reflexivity|].
  split; [exact Hfst|].
  apply (Hkey 0%nat "valve" "valve" Examples.valve MoreExamples.loaded_valve
              "dist_sigma").
  - reflexivity.
  - reflexivity.
  - repeat split; discriminate.
Defined.

(** The plant: the valve is loaded, the gauge fails on its missing file, the
    flange after it is not visited. *)
Lemma unpackage_dist_stops_at_first_failure_witness :
  exists before before' st_idx subtype subtype' evs_n after,
    subtypes MoreExamples.plant = before ++ (st_idx, subtype) :: after
    /\ subtypes (run MoreExamples.plant "inputs").1.1
       = before' ++ (st_idx, subtype') :: after
    /\ length before' = length before
    /\ unpackage_subtype Examples.scipy_stats Examples.dist_fit
         Examples.json_loads Examples.np_exp Examples.read_first_column
         "inputs" subtype
       = (subtype', evs_n, Raise (LibError 2))
    /\ forall n p,
        before !! n = Some p ->
        exists subtype_n evs_p,
          before' !! n = Some (p.1, subtype_n)
          /\ unpackage_subtype Examples.scipy_stats Examples.dist_fit
               Examples.json_loads Examples.np_exp Examples.read_first_column
               "inputs" p.2
             = (subtype_n, evs_p, Ret tt).
Proof.
  apply (unpackage_dist_stops_at_first_failure Examples.scipy_stats
           Examples.dist_fit Examples.json_loads Examples.np_exp
           Examples.read_first_column MoreExamples.plant
           (run MoreExamples.plant "inputs").1.1 "inputs"
           (run MoreExamples.plant "inputs").1.2 (LibError 2)).
  reflexivity.
Defined.

(** The meter has a scale and no shape: its scale is exponentiated before
    the missing shape is noticed. *)
Lemma unpackage_subtype_missing_keys_witness :
  unpackage_subtype Examples.scipy_stats Examples.dist_fit
    Examples.json_loads Examples.np_exp Examples.read_first_column
    "inputs" MoreExamples.meter
  = (<["dist_scale" := VFloat (Examples.exp_poly 1)]> MoreExamples.meter,
     [EExp (VFloat 1%float)], Raise (KeyError "dist_shape")).
Proof.
  apply (proj2 (proj2
           (unpackage_subtype_missing_keys Examples.scipy_stats
              Examples.dist_fit Examples.json_loads Examples.np_exp
              Examples.read_first_column "inputs" MoreExamples.meter
              (or_intror eq_refl)))
           (VFloat 1%float) (VFloat (Examples.exp_poly 1))).
  - reflexivity.
  - reflexivity.
  - reflexivity.
  - reflexivity.
  - reflexivity.
Defined.

(** The valve of the example program has a [dist_sigma] of 1.5 and no
    [dist_shape]. *)
Lemma unpackage_dist_sigma_overrides_witness :
  exists subtype' name scale,
    subtypes (run Examples.facility "inputs").1.1 !! 0%nat
    = Some ("valve", subtype')
    /\ subtype' !! "dist_shape" = Some (VList [VFloat 1.5%float])
    /\ subtype' !! "leak_rate_dist"
       = Some (VFrozen name [VFloat 1.5%float] (VInt 0) scale)
    /\ Examples.scipy_stats name = Some 1%nat.
Proof.
  apply (unpackage_dist_sigma_overrides Examples.scipy_stats
           Examples.dist_fit Examples.json_loads Examples.np_exp
           Examples.read_first_column Examples.facility
           (run Examples.facility "inputs").1.1 "inputs"
           (run Examples.facility "inputs").1.2
           0%nat "valve" Examples.valve (VFloat 1.5%float)).
  - reflexivity.
  - reflexivity.
  - left. reflexivity.
  - reflexivity.
Defined.

(** The example program loaded twice. *)
Lemma unpackage_dist_twice_exponentiates_twice_witness :
  exists e1 e2 subtype2 args,
    Examples.np_exp (VFloat 1%float) = Ret e1
    /\ Examples.np_exp e1 = Ret e2
    /\ subtypes (run (run Examples.facility "inputs").1.1 "inputs").1.1 !! 0%nat
       = Some ("valve", subtype2)
    /\ subtype2 !! "leak_rate_dist" = Some (VFrozen "lognorm" args (VInt 0) e2)
    /\ subtype2 !! "dist_scale" = Some e2.
Proof.
  apply (unpackage_dist_twice_exponentiates_twice Examples.scipy_stats
           Examples.dist_fit Examples.json_loads Examples.np_exp
           Examples.read_first_column Examples.facility
           (run Examples.facility "inputs").1.1
           (run (run Examples.facility "inputs").1.1 "inputs").1.1
           "inputs"
           (run Examples.facility "inputs").1.2
           (run (run Examples.facility "inputs").1.1 "inputs").1.2
           0%nat "valve" Examples.valve (VFloat 1%float)).
  - reflexivity.
  - reflexivity.
  - reflexivity.
  - left. reflexivity.
  - reflexivity.
  - reflexivity.
Defined.

(** The flange reads its file; the gauge names a file that is not there. *)
Lemma unpackage_subtype_sample_witness :
  (exists file rates,
      Examples.flange !! "leak_rates_file" = Some (VStr file)
      /\ Examples.read_first_column "inputs" file = Ret rates
      /\ [EReadCsv "inputs" "leak_rates.csv"] = [EReadCsv "inputs" file]
      /\ <["empirical_leak_rates" := VArray [0.5%float; 1.25%float; 3%float]]>
           Examples.flange
         = <["empirical_leak_rates" := VArray rates]> Examples.flange)
  /\ unpackage_subtype Examples.scipy_stats Examples.dist_fit
       Examples.json_loads Examples.np_exp Examples.read_first_column
       "inputs" MoreExamples.gauge
     = (MoreExamples.gauge, [EReadCsv "inputs" "gauge_rates.csv"],
        Raise (LibError 2)).
Proof.
  split.
  - apply (proj1 (unpackage_subtype_sample Examples.scipy_stats
                    Examples.dist_fit Examples.json_loads Examples.np_exp
                    Examples.read_first_column "inputs" Examples.flange
                    eq_refl)).
    reflexivity.
  - exact (proj2 (proj2
             (unpackage_subtype_sample Examples.scipy_stats
                Examples.dist_fit Examples.json_loads Examples.np_exp
                Examples.read_first_column "inputs" MoreExamples.gauge
                eq_refl))
             "gauge_rates.csv" (LibError 2) eq_refl eq_refl).
Defined.

(** One and a half minutes in steps of one: the walk steps over [T2] and
    ends in [OverflowError]. *)
Lemma init_orbit_poly_overflows_witness :
  exists fuel,
    init_orbit_poly unit Examples.get_position Examples.ecef_to_llh
      fuel 0 90000000 1
    = Some (Raise OverflowError).
Proof.
  apply (init_orbit_poly_overflows unit Examples.get_position
           Examples.ecef_to_llh 0 90000000 1).
  - intros t. exists tt, (0%float, 0%float, 500%float). split; reflexivity.
  - lia.
  - unfold datetime_max. lia.
  - intros k. lia.
Defined.

(** An interval of zero: nothing to do from a time to itself, and no end
    from a time to another. *)
Lemma init_orbit_poly_zero_interval_witness :
  init_orbit_poly unit Examples.get_position Examples.ecef_to_llh
    5 60000000 60000000 7
  = Some (Ret ([], []))
  /\ init_orbit_poly unit Examples.get_position Examples.ecef_to_llh
       5 0 60000000 0
     = None.
Proof.
  split.
  - exact (proj1 (init_orbit_poly_zero_interval unit Examples.get_position
                    Examples.ecef_to_llh 60000000 60000000 5%nat)
                 eq_refl 7).
  - apply (proj2 (init_orbit_poly_zero_interval unit Examples.get_position
                    Examples.ecef_to_llh 0 60000000 5%nat)).
    + intros t. exists tt, (0%float, 0%float, 500%float). split; reflexivity.
    + unfold datetime_max. lia.
    + lia.
Defined.

(** Two minutes in steps of one over the moving satellite: two polygons,
    the second starting where the first ends. *)
Lemma init_orbit_poly_polygons_witness :
  [ {| exterior := [(0, 0 + tenth); (0 + tenth, 0);
                    (1, 0.5 - tenth); (1 - tenth, 0.5)]%float |};
    {| exterior := [(1, 0.5 + tenth); (1 + tenth, 0.5);
                    (2, 1 - tenth); (2 - tenth, 1)]%float |} ]
  = map (fun t => Notions.coverage (MoreExamples.ground t)
                    (MoreExamples.ground (t + 1 * 60000000)))
        [0; 60000000].
Proof.
  apply (init_orbit_poly_polygons Z MoreExamples.get_position
           MoreExamples.ecef_to_llh MoreExamples.ground
           2%nat 0 120000000 1).
  - intros t. reflexivity.
  - reflexivity.
Defined.

(** The vector of the unit test: 10.123 is closest to the entry 10, at
    index 1. *)
Lemma geo_idx_closest_witness :
  exists xi,
    nth_error [9%float; 10%float; 11%float; 12%float; 13%float] 1 = Some xi
    /\ forall j xj,
        nth_error [9%float; 10%float; 11%float; 12%float; 13%float] j = Some xj ->
        PrimFloat.leb (PrimFloat.abs (xi - MoreExamples.dd)) (PrimFloat.abs (xj - MoreExamples.dd))
        = true
        /\ ((j < 1)%nat ->
            PrimFloat.ltb (PrimFloat.abs (xi - MoreExamples.dd))
                          (PrimFloat.abs (xj - MoreExamples.dd))
            = true).
Proof.
  apply (geo_idx_closest MoreExamples.dd
           [9%float; 10%float; 11%float; 12%float; 13%float] 1%nat).
  - repeat constructor.
  - reflexivity.
Defined.

(** A NaN entry at index 2 wins over the exact match behind it. *)
Lemma geo_idx_first_nan_witness :
  Geo.geo_idx MoreExamples.dd ([9%float; 10%float] ++ nan :: [MoreExamples.dd])
  = Ret (length [9%float; 10%float]).
Proof.
  apply (geo_idx_first_nan MoreExamples.dd [9%float; 10%float] [MoreExamples.dd] nan).
  - repeat constructor.
  - reflexivity.
Defined.

(** Sunrise at 12:41 UTC and sunset at 03:07 UTC give 5.41 and 20.07. *)
Lemma quick_cal_daylight_ranges_witness :
  PrimFloat.leb (-7)%float (5 + 41 / 100)%float = true
  /\ PrimFloat.ltb (5 + 41 / 100)%float 17%float = true
  /\ PrimFloat.leb 17%float (20 + 7 / 100)%float = true
  /\ PrimFloat.ltb (20 + 7 / 100)%float 41%float = true
  /\ PrimFloat.ltb (5 + 41 / 100)%float (20 + 7 / 100)%float = true
  /\ exists obs h m,
      MoreExamples.previous_rising obs = Ret (h, m)
      /\ (PrimFloat.ltb (5 + 41 / 100)%float 0%float = true <-> h < 7).
Proof.
  apply (quick_cal_daylight_ranges Z Z MoreExamples.str
           MoreExamples.previous_rising MoreExamples.next_setting
           0 51 (-114)).
  - intros obs h m [= <- <-]. lia.
  - intros obs h m [= <- <-]. lia.
  - reflexivity.
Defined.

(** A point on the polar axis, at the height of the pole. *)
Lemma ecef_to_llh_polar_axis_witness :
  MoreExamples.llh [0%float; 0%float; Ecef.b] = Ecef.Error Ecef.ZeroDivisionError.
Proof.
  exact (ecef_to_llh_polar_axis MoreExamples.m_sin MoreExamples.m_cos
           MoreExamples.m_atan MoreExamples.m_atan2 MoreExamples.float_pow
           0%float 0%float Ecef.b [] eq_refl eq_refl).
Defined.

(** Two points over the same meridian, north and south of the equator. *)
Lemma ecef_to_llh_longitude_witness :
  exists lat lon h lat' lon' h',
    MoreExamples.llh [6000%float; 600%float; 600%float] = Ecef.Value (lat, lon, h)
    /\ MoreExamples.llh [6000%float; 600%float; (-300)%float]
       = Ecef.Value (lat', lon', h')
    /\ lon = Ecef.degrees (MoreExamples.m_atan2 600 6000)
    /\ lon' = lon.
Proof.
  do 6 eexists.
  split; [reflexivity|]. split; [reflexivity|].
  epose proof (ecef_to_llh_longitude MoreExamples.m_sin MoreExamples.m_cos
                MoreExamples.m_atan MoreExamples.m_atan2 MoreExamples.float_pow
                6000%float 600%float 600%float (-300)%float
                _ _ _ _ _ _ eq_refl) as [Hlon Hsame].
  split; [exact Hlon|]. apply Hsame. reflexivity.
Defined.

(** No coordinates, and two coordinates. *)
Lemma ecef_to_llh_short_witness :
  MoreExamples.llh [] = Ecef.Error (Ecef.Other IndexError)
  /\ MoreExamples.llh [6000%float; 600%float]
     <> Ecef.Value (0%float, 0%float, 0%float).
Proof.
  split.
  - refine (proj2 (ecef_to_llh_short MoreExamples.m_sin MoreExamples.m_cos
                     MoreExamples.m_atan MoreExamples.m_atan2
                     MoreExamples.float_pow [] _) eq_refl).
    simpl. lia.
  - refine (proj1 (ecef_to_llh_short MoreExamples.m_sin MoreExamples.m_cos
                     MoreExamples.m_atan MoreExamples.m_atan2
                     MoreExamples.float_pow [6000%float; 600%float] _) _).
    simpl. lia.
Defined.

End MoreWorkedExamples.
